(** * Login server configuration (src/config.js)

    A shallow embedding of src/config.js:

    - the settings read from the environment (lines 16-53, 63): the
      defaults, the MongoDB URL, the allowed origins and the check of the
      base URL;
    - the [jwtExpiresIn] clamp (lines 55-59);
    - the RSA key setup (lines 88-132): the [try] block that loads and
      tests the key pair, the [catch] block that either exits or
      generates, backs up and saves a new pair;
    - the providers setup (lines 139-184).

    JavaScript values are modelled as they are tested by the code:
    [process.env] entries are [option string] ([None] is [undefined]),
    numbers are integers, NaN or an infinity, a key is a Buffer or a
    string.  The file system is a finite map from paths to nodes, and the
    statements are written in a small state-and-exception monad over the
    process state (the two [let] variables, the disk, the console). *)

From Stdlib Require Import ZArith Lia Ascii String List.
From stdpp Require Import base option list strings pretty gmap.

Local Open Scope Z_scope.

(** ** JavaScript values *)

Module Js.

(** A JavaScript Number, as far as [parseInt] can produce one: NaN, an
    integral value (the two zeros are both [Num 0]) or an infinity. *)
Inductive number : Type :=
  | NaN
  | Num (z : Z)
  | PosInfinity
  | NegInfinity.

(** ToBoolean on a Number: NaN and the zeros are falsy. *)
Definition truthy_number (n : number) : bool :=
  match n with
  | NaN => false
  | Num z => negb (z =? 0)
  | PosInfinity | NegInfinity => true
  end.

(** [a || b] on Numbers. *)
Definition or_number (a b : number) : number :=
  if truthy_number a then a else b.

(** [a < b] on Numbers; any comparison with NaN is false. *)
Definition lt_number (a b : number) : bool :=
  match a, b with
  | NaN, _ | _, NaN => false
  | Num x, Num y => x <? y
  | NegInfinity, NegInfinity => false
  | NegInfinity, _ => true
  | _, PosInfinity => match a with PosInfinity => false | _ => true end
  | _, _ => false
  end.

(** The Number value for a mathematical integer: exact below 2^53,
    otherwise rounded to 53 significant bits (nearest, ties to even), and
    an infinity once the rounded magnitude reaches 2^1024. *)
Definition toNumber (x : Z) : number :=
  let a := Z.abs x in
  if a <? 2 ^ 53 then Num x
  else
    let e := Z.log2 a - 52 in
    let q := a / 2 ^ e in
    let r := a mod 2 ^ e in
    let q' := if (2 ^ e <? 2 * r) || ((2 * r =? 2 ^ e) && Z.odd q)
              then q + 1 else q in
    let v := q' * 2 ^ e in
    if 2 ^ 1024 <=? v
    then (if x <? 0 then NegInfinity else PosInfinity)
    else Num (Z.sgn x * v).

(** ToBoolean on a string: only the empty string is falsy. *)
Definition truthy_string (s : string) : bool :=
  match s with
  | EmptyString => false
  | String _ _ => true
  end.

(** ToBoolean on a [process.env] entry. *)
Definition truthy_env (v : option string) : bool :=
  match v with
  | None => false
  | Some s => truthy_string s
  end.

(** [v || d] on a [process.env] entry with a string default. *)
Definition or_env (v : option string) (d : string) : string :=
  match v with
  | Some s => if truthy_string s then s else d
  | None => d
  end.

(** ToString of a [process.env] entry: [undefined] prints as such. *)
Definition toString_env (v : option string) : string :=
  match v with
  | Some s => s
  | None => "undefined"
  end.

(** Strings are sequences of code units below 256; these are the
    white-space and line-terminator code units in that range. *)
Definition isWhiteSpace (c : ascii) : bool :=
  let n := N_of_ascii c in
  ((9 <=? n) && (n <=? 13) || (n =? 32) || (n =? 160))%N.

Fixpoint trimStart (s : string) : string :=
  match s with
  | EmptyString => EmptyString
  | String c s' => if isWhiteSpace c then trimStart s' else s
  end.

(** The value of a digit or letter as a numeral, [0-9a-zA-Z]. *)
Definition digitValue (c : ascii) : option Z :=
  let n := Z.of_N (N_of_ascii c) in
  if (48 <=? n) && (n <=? 57) then Some (n - 48)
  else if (97 <=? n) && (n <=? 122) then Some (n - 87)
  else if (65 <=? n) && (n <=? 90) then Some (n - 55)
  else None.

Definition radixDigit (R : Z) (c : ascii) : option Z :=
  match digitValue c with
  | Some d => if d <? R then Some d else None
  | None => None
  end.

(** The longest prefix of radix-[R] digits, read as an integer; [acc] is
    [None] as long as no digit has been read. *)
Fixpoint digits (R : Z) (s : string) (acc : option Z) : option Z :=
  match s with
  | EmptyString => acc
  | String c s' =>
      match radixDigit R c with
      | Some d => digits R s' (Some (default 0 acc * R + d))
      | None => acc
      end
  end.

(** [parseInt(string)] with no radix argument: leading white space is
    skipped, a sign is read, a [0x]/[0X] prefix selects radix 16, and the
    digits up to the first non-digit are read; no digit gives NaN. *)
Definition parseInt (input : string) : number :=
  let S0 := trimStart input in
  let '(sign, S1) :=
    match S0 with
    | String "-" rest => (-1, rest)
    | String "+" rest => (1, rest)
    | _ => (1, S0)
    end in
  let '(R, S2) :=
    match S1 with
    | String "0" (String "x" rest) => (16, rest)
    | String "0" (String "X" rest) => (16, rest)
    | _ => (10, S1)
    end in
  match digits R S2 None with
  | None => NaN
  | Some mathInt => toNumber (sign * mathInt)
  end.

End Js.

(** ** Token expiry (config.js, lines 55-59) *)

Definition minimum_warning : string :=
  "Warning: Minimum for JWT_EXPIRES_IN is 10 seconds.".

(** [jwtExpiresIn] after the clamp, with the [console.warn] lines it
    printed.  The argument is [process.env.JWT_EXPIRES_IN]. *)
Definition jwtExpiresIn (JWT_EXPIRES_IN : option string)
  : Js.number * list string :=
  let jwtExpiresIn :=
    Js.or_number (Js.parseInt (Js.toString_env JWT_EXPIRES_IN)) (Js.Num 120) in
  if Js.lt_number jwtExpiresIn (Js.Num 10)
  then (Js.Num 10, [minimum_warning])
  else (jwtExpiresIn, []).

(** ** The process: variables, disk, console *)

(** [privateKey] and [publicKey] hold a Buffer (from [fs.readFileSync])
    or a string (from [key.exportKey]). *)
Inductive key : Type :=
  | Buffer (data : list Byte.byte)
  | Text (s : string).

(** ToBoolean on the variable: [undefined] is falsy, a Buffer is an
    object and so truthy whatever its length, a string is truthy unless
    empty. *)
Definition truthy_key (k : option key) : bool :=
  match k with
  | None => false
  | Some (Buffer _) => true
  | Some (Text s) => Js.truthy_string s
  end.

(** The bytes [fs.writeFileSync] stores for a key. *)
Definition key_bytes (k : key) : list Byte.byte :=
  match k with
  | Buffer data => data
  | Text s => list_byte_of_string s
  end.

(** A thrown Error object, with the fields the [catch] block reads. *)
Record error : Type := Error {
  name : string;
  code : option string;
  path : option string;
  message : string
}.

(** An entry of the disk: a regular file with its bytes and permission
    bits, or a directory. *)
Inductive node : Type :=
  | File (data : list Byte.byte) (mode : Z)
  | Directory.

(** Mutations of the disk, in the order they were made. *)
Inductive effect : Type :=
  | Rename (oldPath newPath : string)
  | Write (file : string) (data : list Byte.byte)
  | Chmod (file : string) (mode : string).

Inductive stream : Type := log | warn | err.

Record process : Type := Process {
  privateKey : option key;
  publicKey : option key;
  disk : gmap string node;
  umask : Z;
  effects : list effect;
  console : list (stream * string)
}.

Definition set_privateKey (k : key) (s : process) : process :=
  Process (Some k) (publicKey s) (disk s) (umask s) (effects s) (console s).
Definition set_publicKey (k : key) (s : process) : process :=
  Process (privateKey s) (Some k) (disk s) (umask s) (effects s) (console s).
Definition set_disk (d : gmap string node) (e : effect) (s : process) : process :=
  Process (privateKey s) (publicKey s) d (umask s) (effects s ++ [e]) (console s).
Definition print (o : stream) (line : string) (s : process) : process :=
  Process (privateKey s) (publicKey s) (disk s) (umask s) (effects s)
          (console s ++ [(o, line)]).

(** The process as the key setup finds it: both variables [undefined],
    nothing done to the disk yet, nothing printed. *)
Definition start (d : gmap string node) (mask : Z) : process :=
  Process None None d mask [] [].

(** ** Statements: state, exceptions, exit *)

Inductive result (A : Type) : Type :=
  | Normal (a : A)
  | Throw (e : error)
  | Exit (status : Z)
  | Diverge.
Arguments Normal {A} a.
Arguments Throw {A} e.
Arguments Exit {A} status.
Arguments Diverge {A}.

Definition M (A : Type) : Type := process -> result A * process.

Global Instance M_ret : MRet M := fun A a s => (Normal a, s).
Global Instance M_bind : MBind M := fun A B f m s =>
  match m s with
  | (Normal a, s') => f a s'
  | (Throw e, s') => (Throw e, s')
  | (Exit c, s') => (Exit c, s')
  | (Diverge, s') => (Diverge, s')
  end.

Definition get : M process := fun s => (Normal s, s).
Definition modify (f : process -> process) : M unit := fun s => (Normal tt, f s).
Definition throw {A} (e : error) : M A := fun s => (Throw e, s).
Definition process_exit {A} (status : Z) : M A := fun s => (Exit status, s).
Definition diverge {A} : M A := fun s => (Diverge, s).

(** [try { body } catch (error) { handler error }] *)
Definition try_catch {A} (body : M A) (handler : error -> M A) : M A :=
  fun s =>
    match body s with
    | (Throw e, s') => handler e s'
    | r => r
    end.

(** [for (let x of l) { body x }] *)
Fixpoint for_of {A} (l : list A) (body : A -> M unit) : M unit :=
  match l with
  | [] => mret tt
  | x :: l' => body x;; for_of l' body
  end.

Definition console_log (line : string) : M unit := modify (print log line).
Definition console_warn (line : string) : M unit := modify (print warn line).
Definition console_error (line : string) : M unit := modify (print err line).

(** ** The [fs] module on the modelled disk *)

Module fs.

Definition ENOENT (syscall p : string) : error :=
  Error "Error" (Some "ENOENT") (Some p)
        ("ENOENT: no such file or directory, " +:+ syscall +:+ " '" +:+ p +:+ "'").

Definition EISDIR (syscall : string) (p : option string) : error :=
  Error "Error" (Some "EISDIR") p
        ("EISDIR: illegal operation on a directory, " +:+ syscall).

Definition ENOTDIR (syscall p : string) : error :=
  Error "Error" (Some "ENOTDIR") (Some p)
        ("ENOTDIR: not a directory, " +:+ syscall +:+ " '" +:+ p +:+ "'").

Definition ERR_INVALID_ARG_TYPE : error :=
  Error "TypeError" (Some "ERR_INVALID_ARG_TYPE") None
        ("The 'data' argument must be of type string or an instance of "
           +:+ "Buffer, TypedArray, or DataView. Received undefined").

Definition ERR_INVALID_ARG_VALUE (value : string) : error :=
  Error "TypeError" (Some "ERR_INVALID_ARG_VALUE") None
        ("The argument 'mode' must be a 32-bit unsigned integer or an "
           +:+ "octal string. Received '" +:+ value +:+ "'").

(** A mode given as a string is read as octal digits. *)
Fixpoint octal (s : string) (acc : Z) : option Z :=
  match s with
  | EmptyString => Some acc
  | String c s' =>
      let n := Z.of_N (N_of_ascii c) in
      if (48 <=? n) && (n <=? 55) then octal s' (acc * 8 + (n - 48)) else None
  end.

Definition parseFileMode (value : string) : option Z :=
  match value with
  | EmptyString => None
  | _ => octal value 0
  end.

Definition readFileSync (p : string) : M key :=
  s ← get;
  match disk s !! p with
  | Some (File data _) => mret (Buffer data)
  | Some Directory => throw (EISDIR "read" None)
  | None => throw (ENOENT "open" p)
  end.

Definition existsSync (p : string) : M bool :=
  s ← get;
  mret (match disk s !! p with Some _ => true | None => false end).

(** [below dir p]: the path [p] names an entry below the directory
    [dir], that is, [p] is [dir/...]. *)
Definition below (dir p : string) : bool := String.prefix (dir +:+ "/") p.

Fixpoint skip (n : nat) (s : string) : string :=
  match n, s with
  | O, _ => s
  | S _, EmptyString => EmptyString
  | S n', String _ s' => skip n' s'
  end.

(** Where the entry found at [p] after a move of [oldPath] to [newPath]
    comes from: the moved entry [n] itself at [newPath], what was below
    [oldPath] below [newPath], nothing at or below [oldPath], and every
    other path as before. *)
Definition moved_source (oldPath newPath : string) (n : node)
    (d : gmap string node) (p : string) : option node :=
  if bool_decide (p = newPath) then Some n
  else if below newPath p
       then d !! (oldPath +:+ skip (String.length newPath) p)
  else if bool_decide (p = oldPath) || below oldPath p then None
  else d !! p.

(** The disk after the entry [n] at [oldPath] has been moved to
    [newPath], with every entry below it. *)
Definition moved (oldPath newPath : string) (n : node) (d : gmap string node)
  : gmap string node :=
  let targets : gset string :=
    set_map (fun p => newPath +:+ skip (String.length oldPath) p)
            (filter (fun p => below oldPath p = true) (dom d)) in
  map_imap (fun p _ => moved_source oldPath newPath n d p)
           (gset_to_gmap tt ({[newPath]} ∪ targets ∪ dom d)).

Definition EINVAL (oldPath newPath : string) : error :=
  Error "Error" (Some "EINVAL") (Some oldPath)
        ("EINVAL: invalid argument, rename '" +:+ oldPath +:+ "' -> '"
           +:+ newPath +:+ "'").

Definition ENOTEMPTY (oldPath newPath : string) : error :=
  Error "Error" (Some "ENOTEMPTY") (Some oldPath)
        ("ENOTEMPTY: directory not empty, rename '" +:+ oldPath +:+ "' -> '"
           +:+ newPath +:+ "'").

(** [fs.renameSync]: a missing source, a directory moved into itself,
    a file over a directory, a directory over a file or over a directory
    that has entries are refused; otherwise the entry moves, a directory
    with everything below it, and replaces what was at [newPath]. *)
Definition renameSync (oldPath newPath : string) : M unit :=
  s ← get;
  match disk s !! oldPath, disk s !! newPath with
  | None, _ => throw (ENOENT "rename" oldPath)
  | Some (File _ _), Some Directory => throw (EISDIR "rename" (Some oldPath))
  | Some Directory, Some (File _ _) => throw (ENOTDIR "rename" oldPath)
  | Some n, target =>
      if bool_decide (oldPath = newPath)
      then modify (set_disk (disk s) (Rename oldPath newPath))
      else if below oldPath newPath
      then throw (EINVAL oldPath newPath)
      else if match target with
              | Some Directory =>
                  negb (bool_decide
                          (filter (fun p => below newPath p = true) (dom (disk s))
                           = (∅ : gset string)))
              | _ => false
              end
      then throw (ENOTEMPTY oldPath newPath)
      else modify (set_disk (moved oldPath newPath n (disk s))
                            (Rename oldPath newPath))
  end.

(** A file that is created gets mode [0o666 & ~umask]; a file that is
    overwritten keeps its mode.  [data] is the value of the variable
    passed; [undefined] is refused. *)
Definition writeFileSync (file : string) (data : option key) : M unit :=
  match data with
  | None => throw ERR_INVALID_ARG_TYPE
  | Some data =>
      s ← get;
      match disk s !! file with
      | Some Directory => throw (EISDIR "open" (Some file))
      | Some (File _ mode) =>
          modify (set_disk (<[file := File (key_bytes data) mode]> (disk s))
                           (Write file (key_bytes data)))
      | None =>
          modify (set_disk (<[file := File (key_bytes data)
                                           (Z.land 438 (Z.lnot (umask s)))]> (disk s))
                           (Write file (key_bytes data)))
      end
  end.

Definition chmodSync (p : string) (mode : string) : M unit :=
  match parseFileMode mode with
  | None => throw (ERR_INVALID_ARG_VALUE mode)
  | Some bits =>
      s ← get;
      match disk s !! p with
      | None => throw (ENOENT "chmod" p)
      | Some (File data _) =>
          modify (set_disk (<[p := File data bits]> (disk s)) (Chmod p mode))
      | Some Directory =>
          modify (set_disk (disk s) (Chmod p mode))
      end
  end.

End fs.

(** ** Configuration read by the key setup *)

Record environment : Type := Environment {
  JTW_PRIVATE_KEY_PATH : option string;
  JTW_PUBLIC_KEY_PATH : option string;
  JWT_ALGORITHM : option string;
  JWT_EXPIRES_IN : option string
}.

Record jwtOptions : Type := JwtOptions {
  algorithm : string;
  expiresIn : Js.number
}.

Definition config_jwtOptions (env : environment) : jwtOptions :=
  JwtOptions (Js.or_env (JWT_ALGORITHM env) "RS256")
             (fst (jwtExpiresIn (JWT_EXPIRES_IN env))).

(** [`${x}`] for a field that may be [undefined]. *)
Definition template (x : option string) : string :=
  match x with
  | Some s => s
  | None => "undefined"
  end.

Definition msg_loaded : string := "Loaded RSA keypair.".
Definition msg_missing (p : option string) : string :=
  "Error: Could not find key at path " +:+ template p +:+ ".".
Definition msg_invalid : string :=
  "Error: Testing provided keypair failed (could not verify a signed token).".
Definition msg_unknown (e : error) : string :=
  "Error: Unkown error when loading keypair. (" +:+ name e +:+ ", "
    +:+ template (code e) +:+ ", " +:+ message e +:+ ")".
Definition msg_generating : string :=
  "Generating new keypair and saving to `./private.key` and `./public.key`...".
Definition msg_renaming (from to : string) : string :=
  "Renaming " +:+ from +:+ " to " +:+ to +:+ "...".

(** ** RSA key setup (config.js, lines 88-132) *)

Section KeySetup.

(** The libraries the key setup calls.  [sign key options] is
    [jwt.sign({ test: "test" }, key, options)]: the token, or the error
    thrown.  [verify token key] is [jwt.verify(token, key)]: [None] when
    it returns, the error when it throws.  [generate] is the pair
    exported from [new rsa({ b: 2048 })]: [exportKey("private")] and
    [exportKey("public")]. *)
Variable sign : key -> jwtOptions -> error + string.
Variable verify : string -> key -> option error.
Variable generate : string * string.

Variable env : environment.

Definition privateKeyPath : option string := JTW_PRIVATE_KEY_PATH env.
Definition publicKeyPath : option string := JTW_PUBLIC_KEY_PATH env.

Definition jwt_sign (k : option key) (options : jwtOptions) : M string :=
  match k with
  | Some k =>
      match sign k options with
      | inr token => mret token
      | inl e => throw e
      end
  | None => throw (Error "Error" None None "secretOrPrivateKey must have a value")
  end.

Definition jwt_verify (token : string) (k : option key) : M unit :=
  match k with
  | Some k =>
      match verify token k with
      | None => mret tt
      | Some e => throw e
      end
  | None =>
      throw (Error "JsonWebTokenError" None None "secret or public key must be provided")
  end.

(** Lines 93-94 as a function of the two keys: [None] when the test
    token is signed and verified, the error thrown otherwise. *)
Definition roundtrip (priv pub : key) : option error :=
  match sign priv (config_jwtOptions env) with
  | inl e => Some e
  | inr testToken => verify testToken pub
  end.

(** Lines 90-95. *)
Definition try_block : M unit :=
  buffer ← fs.readFileSync (Js.or_env privateKeyPath "./private.key");
  modify (set_privateKey buffer);;
  buffer ← fs.readFileSync (Js.or_env publicKeyPath "./public.key");
  modify (set_publicKey buffer);;
  s ← get;
  testToken ← jwt_sign (privateKey s) (config_jwtOptions env);
  jwt_verify testToken (publicKey s);;
  console_log msg_loaded.

(** Line 116: [filename + (index ? `.backup.${index}` : "") + ".key"]. *)
Definition file (filename : string) (index : nat) : string :=
  (filename +:+ (match index with
                 | O => ""
                 | S _ => ".backup." +:+ pretty index
                 end)) +:+ ".key".

(** Lines 117-119: the [while] loop, returning the final [index]; it
    gives up ([Diverge]) after [fuel] tests. *)
Fixpoint while_exists (filename : string) (fuel : nat) (index : nat) : M nat :=
  match fuel with
  | O => diverge
  | S fuel' =>
      fs.existsSync (file filename index) ≫= fun b : bool =>
      if b then while_exists filename fuel' (S index) else mret index
  end.

(** Lines 115-123: the body of the [for] loop.  One more test than
    there are entries on the disk is enough for the [while] loop. *)
Definition backup (filename : string) : M unit :=
  s ← get;
  index ← while_exists filename (S (size (disk s))) 0;
  match index with
  | O => mret tt
  | S _ =>
      console_warn (msg_renaming (file filename 0) (file filename index));;
      fs.renameSync (file filename 0) (file filename index)
  end.

(** Line 97: [privateKeyPath || publicKeyPath || privateKey || publicKey]. *)
Definition provided (s : process) : bool :=
  Js.truthy_env privateKeyPath || Js.truthy_env publicKeyPath
  || truthy_key (privateKey s) || truthy_key (publicKey s).

(** Lines 98-107. *)
Definition report (e : error) : M unit :=
  let errorName := name e in
  let errorCode := code e in
  (if bool_decide (errorName = "Error")
      && bool_decide (errorCode = Some "ENOENT")
   then console_error (msg_missing (path e))
   else if bool_decide (errorName = "JsonWebTokenError")
   then console_error msg_invalid
   else console_error (msg_unknown e));;
  process_exit 1.

(** Lines 97-129. *)
Definition catch_block (e : error) : M unit :=
  s ← get;
  (if provided s then report e else mret tt);;
  console_log msg_generating;;
  modify (set_privateKey (Text (fst generate)));;
  modify (set_publicKey (Text (snd generate)));;
  for_of ["./private"; "./public"] backup;;
  s ← get;
  fs.writeFileSync "./private.key" (privateKey s);;
  fs.chmodSync "./private.key" "600";;
  s ← get;
  fs.writeFileSync "./public.key" (publicKey s);;
  fs.chmodSync "./public.key" "644".

(** Lines 88-130. *)
Definition keySetup : M unit := try_catch try_block catch_block.

(** Lines 88-132: the key setup, then the two keys as they are stored
    in [config.privateKey] and [config.publicKey]. *)
Definition resolve : M (option key * option key) :=
  keySetup;;
  s ← get;
  mret (privateKey s, publicKey s).

End KeySetup.

(** ** A small stand-in for the libraries, to run the setup on examples *)

Module Toy.

(** A token is the text of the private key; a public key verifies it
    when it holds the same bytes. *)
Definition sign (k : key) (options : jwtOptions) : error + string :=
  inr (string_of_list_byte (key_bytes k)).

Definition verify (token : string) (k : key) : option error :=
  if bool_decide (token = string_of_list_byte (key_bytes k))
  then None
  else Some (Error "JsonWebTokenError" None None "invalid signature").

Definition generate : string * string := ("fresh", "fresh").

Definition no_paths : environment := Environment None None None None.

Definition bytes (s : string) : list Byte.byte := list_byte_of_string s.

(** A private key path set in the environment. *)
Definition private_path_set : environment :=
  Environment (Some "/etc/keys/private.pem") None None None.

(** Disks to start from. *)
Definition matching_pair : gmap string node :=
  {[ "./private.key" := File (bytes "k") 384;
     "./public.key" := File (bytes "k") 420 ]}.

Definition mismatched_pair : gmap string node :=
  {[ "./private.key" := File (bytes "a") 384;
     "./public.key" := File (bytes "b") 420 ]}.


Definition private_key_is_directory : gmap string node :=
  {[ "./private.key" := Directory ]}.

Definition lone_public_key : gmap string node :=
  {[ "./public.key" := File (bytes "b") 420;
     "./public.backup.1.key" := File (bytes "c") 420 ]}.

Definition configured_directory : gmap string node :=
  {[ "/etc/keys/private.pem" := Directory ]}.

Definition configured_mismatch : gmap string node :=
  {[ "/etc/keys/private.pem" := File (bytes "a") 384;
     "./public.key" := File (bytes "b") 420 ]}.

(** The digit 1 followed by [n] zeros. *)
Definition power_of_ten (n : nat) : string :=
  string_of_list_ascii ("1"%char :: repeat "0"%char n).

End Toy.

Abbreviation toy_resolve := (resolve Toy.sign Toy.verify Toy.generate).

(** ** Vocabulary of the statements *)

(** [least_free d filename i]: [i] is the smallest index whose backup
    name is not on the disk. *)
Definition least_free (d : gmap string node) (filename : string) (i : nat) : Prop :=
  d !! file filename i = None /\
  forall j : nat, (j < i)%nat -> is_Some (d !! file filename j).

(** The disk after the rename of lines 120-123, for the index [i] the
    loop stopped at. *)
Definition rotated (filename : string) (i : nat) (d : gmap string node)
  : gmap string node :=
  match i, d !! file filename 0 with
  | S _, Some n => fs.moved (file filename 0) (file filename i) n d
  | _, _ => d
  end.

Definition renames (filename : string) (i : nat) : list effect :=
  match i with
  | O => []
  | S _ => [Rename (file filename 0) (file filename i)]
  end.

Definition warnings (filename : string) (i : nat) : list (stream * string) :=
  match i with
  | O => []
  | S _ => [(warn, msg_renaming (file filename 0) (file filename i))]
  end.


(** The nine permission bits of a mode, as [ls -l] prints them. *)
Definition permissions (mode : Z) : string :=
  let bit (i : Z) (c : ascii) : ascii :=
    if Z.testbit mode i then c else "-"%char in
  string_of_list_ascii
    [bit 8 "r"; bit 7 "w"; bit 6 "x";
     bit 5 "r"; bit 4 "w"; bit 3 "x";
     bit 2 "r"; bit 1 "w"; bit 0 "x"]%char.

(** ** Settings read from the environment (config.js, lines 16-53, 63) *)

Module Settings.

Record variables : Type := Variables {
  NODE_ENV : option string;
  BASE_URL : option string;
  PORT : option string;
  MONGO_USER : option string;
  MONGO_PASS : option string;
  MONGO_HOST : option string;
  MONGO_PORT : option string;
  MONGO_DB : option string;
  ALLOWED_ORIGINS : option string
}.

(** Lines 17-27.  [mongoPort] is a string from the environment or the
    number 27017; it is only used inside a template, where both print as
    text. *)
Definition env (e : variables) : string :=
  Js.or_env (NODE_ENV e) "development".

Definition baseUrl (e : variables) : string :=
  Js.or_env (BASE_URL e)
    ("http://localhost"
       +:+ (if Js.truthy_env (PORT e) then ":" +:+ Js.toString_env (PORT e) else "")).

Definition mongoUser (e : variables) : string := Js.or_env (MONGO_USER e) "".
Definition mongoPass (e : variables) : string := Js.or_env (MONGO_PASS e) "".

Definition mongoAuth (e : variables) : string :=
  if Js.truthy_string (mongoUser e)
  then mongoUser e +:+ ":" +:+ mongoPass e +:+ "@"
  else "".

Definition mongoHost (e : variables) : string := Js.or_env (MONGO_HOST e) "localhost".
Definition mongoPort (e : variables) : string := Js.or_env (MONGO_PORT e) "27017".

Definition mongoDb (e : variables) : string :=
  Js.or_env (MONGO_DB e) "login-server"
    +:+ (if bool_decide (env e = "test") then "-test" else "").

Definition mongoUrl (e : variables) : string :=
  "mongodb://" +:+ mongoAuth e +:+ mongoHost e +:+ ":" +:+ mongoPort e
    +:+ "/" +:+ mongoDb e.

(** [s.split(separator)] for a separator of one character. *)
Fixpoint split (separator : ascii) (s : string) : list string :=
  match s with
  | EmptyString => [EmptyString]
  | String c s' =>
      if bool_decide (c = separator) then EmptyString :: split separator s'
      else match split separator s' with
           | [] => [String c EmptyString]
           | first :: others => String c first :: others
           end
  end.

(** [l.join(separator)] *)
Fixpoint join (separator : string) (l : list string) : string :=
  match l with
  | [] => ""
  | [x] => x
  | x :: l' => x +:+ separator +:+ join separator l'
  end.

(** Line 40. *)
Definition allowedOrigins_env (e : variables) : list string :=
  filter (fun origin => origin <> "")
         (split "," (Js.or_env (ALLOWED_ORIGINS e) "")).

(** The fields of [url.parse(baseUrl)] that are read; [null] is [None]
    (and [false] for [slashes]). *)
Record Url : Type := {
  protocol : option string;
  slashes : bool;
  hostname : option string
}.

(** [`${x}`] for a field that may be [null]. *)
Definition template_null (x : option string) : string :=
  match x with
  | Some s => s
  | None => "null"
  end.

(** [s.startsWith(prefix)] *)
Definition startsWith (prefix s : string) : bool := String.prefix prefix s.

(** [s.endsWith(suffix)] *)
Fixpoint endsWith (suffix s : string) : bool :=
  String.eqb s suffix
  || match s with
     | EmptyString => false
     | String _ s' => endsWith suffix s'
     end.

Fixpoint drop (n : nat) (s : string) : string :=
  match n, s with
  | O, _ => s
  | S _, EmptyString => EmptyString
  | S n', String _ s' => drop n' s'
  end.

(** [s.replace(pattern, replacement)] for a string pattern and a
    replacement without [$]: the first occurrence is replaced. *)
Fixpoint replace (pattern replacement s : string) : string :=
  if String.prefix pattern s
  then replacement +:+ drop (String.length pattern) s
  else match s with
       | EmptyString => EmptyString
       | String c s' => String c (replace pattern replacement s')
       end.

Definition msg_base_url : string := "Please provide a full BASE_URL in .env.".

Section Url.

(** [url.parse] of Node's [url] module. *)
Variable url_parse : string -> Url.

Variable e : variables.

Definition purl : Url := url_parse (baseUrl e).

(** Line 43: the test that rejects the base URL. *)
Definition incomplete : bool :=
  negb (match protocol purl with
        | Some p => bool_decide (p ∈ ["http:"; "https:"])
        | None => false
        end)
  || negb (slashes purl)
  || negb (Js.truthy_env (hostname purl)).

(** Lines 40-48: the list of allowed origins, after the check of the
    base URL. *)
Definition allowedOrigins : M (list string) :=
  (if incomplete
   then console_error msg_base_url;; process_exit 1
   else mret tt);;
  let origins :=
    allowedOrigins_env e
      ++ [template_null (protocol purl) +:+ "//" +:+ template_null (hostname purl)] in
  console_log ("Allowed origins: " +:+ join ", " origins);;
  mret origins.

(** Lines 52-53. *)
Definition cleanUrl : string :=
  replace (template_null (protocol purl) +:+ "//") "" (baseUrl e) +:+ "/".

Definition ssl : bool := bool_decide (protocol purl = Some "https:").

End Url.

(** Line 63: [config.baseUrl]. *)
Definition config_baseUrl (e : variables) : string :=
  if endsWith "/" (baseUrl e)
  then String.substring 0 (String.length (baseUrl e) - 1) (baseUrl e)
  else baseUrl e.

End Settings.

(** ** Providers setup (config.js, lines 139-184) *)

Module Providers.

(** A JSON value, for the fields of a provider that the setup only
    carries along. *)
#[warnings="-register-all"]
Inductive json : Type :=
  | JString (s : string)
  | JBool (b : bool)
  | JArray (l : list json)
  | JObject (fields : list (string * json)).

(** A provider object: the fields the setup reads or writes, and the
    others. *)
Record provider : Type := Provider {
  id : string;
  image : option string;
  loginURL : option string;
  callbackURL : option string;
  others : list (string * json)
}.

Definition imageFormats : list string := ["svg"; "png"; "jpg"].

(** Lines 153-159: the first format whose file exists gives the image. *)
Fixpoint find_image (baseUrl : string) (provider_id : string)
    (formats : list string) : M (option string) :=
  match formats with
  | [] => mret None
  | format :: formats' =>
      let file := "static/" +:+ provider_id +:+ "." +:+ format in
      fs.existsSync file ≫= fun found : bool =>
      if found then mret (Some (baseUrl +:+ "/" +:+ file))
      else find_image baseUrl provider_id formats'
  end.

(** Lines 149-163: the body of the loop over the providers. *)
Definition prepare (baseUrl : string) (p : provider) : M provider :=
  let login := baseUrl +:+ "/login/" +:+ id p in
  let callback := baseUrl +:+ "/login/" +:+ id p +:+ "/return" in
  if negb (Js.truthy_env (image p)) then
    found ← find_image baseUrl (id p) imageFormats;
    mret (Provider (id p)
            (match found with Some url => Some url | None => image p end)
            (Some login) (Some callback) (others p))
  else if negb (Settings.startsWith "http" (Js.toString_env (image p))) then
    mret (Provider (id p) (Some (baseUrl +:+ "/" +:+ Js.toString_env (image p)))
            (Some login) (Some callback) (others p))
  else
    mret (Provider (id p) (image p) (Some login) (Some callback) (others p)).

(** [for (let provider of providers) { ... }], with the objects after
    the loop. *)
Fixpoint prepare_all (baseUrl : string) (providers : list provider)
  : M (list provider) :=
  match providers with
  | [] => mret []
  | p :: rest =>
      prepare baseUrl p ≫= fun p' : provider =>
      prepare_all baseUrl rest ≫= fun rest' : list provider =>
      mret (p' :: rest')
  end.

(** Lines 167-183. *)
Definition test_provider : provider :=
  Provider "test" None None None
    [("strategy", JString "test");
     ("name", JString "Test");
     ("credentialsNecessary", JBool true);
     ("options",
      JObject [("users",
                JArray [JObject [("username", JString "testuser");
                                 ("password", JString "testtest");
                                 ("displayName", JString "A Test User")]])])].

(** Lines 139-184.  [providers_json] is the array that
    [require("./providers.json")] returns, [None] when it throws. *)
Definition setup (env baseUrl : string)
    (providers_json : option (list provider)) : M (list provider) :=
  if negb (bool_decide (env = "test"))
  then prepare_all baseUrl (default [] providers_json)
  else mret [test_provider].

End Providers.

(** ** More vocabulary and examples *)

(** [has_char c s]: the character [c] occurs in [s]. *)
Fixpoint has_char (c : ascii) (s : string) : bool :=
  match s with
  | EmptyString => false
  | String x s' => bool_decide (x = c) || has_char c s'
  end.

(** The image URL that the loop of lines 153-159 finds on disk [d]. *)
Fixpoint first_image (d : gmap string node) (baseUrl provider_id : string)
    (formats : list string) : option string :=
  match formats with
  | [] => None
  | format :: formats' =>
      match d !! ("static/" +:+ provider_id +:+ "." +:+ format) with
      | Some _ => Some (baseUrl +:+ "/" +:+ "static/" +:+ provider_id +:+ "." +:+ format)
      | None => first_image d baseUrl provider_id formats'
      end
  end.

(** The provider object after lines 149-163 on disk [d]. *)
Definition prepared (d : gmap string node) (baseUrl : string)
    (p : Providers.provider) : Providers.provider :=
  Providers.Provider (Providers.id p)
    (if negb (Js.truthy_env (Providers.image p)) then
       match first_image d baseUrl (Providers.id p) Providers.imageFormats with
       | Some url => Some url
       | None => Providers.image p
       end
     else if negb (Settings.startsWith "http" (Js.toString_env (Providers.image p)))
     then Some (baseUrl +:+ "/" +:+ Js.toString_env (Providers.image p))
     else Providers.image p)
    (Some (baseUrl +:+ "/login/" +:+ Providers.id p))
    (Some (baseUrl +:+ "/login/" +:+ Providers.id p +:+ "/return"))
    (Providers.others p).

Module Toy2.

(** Three providers: without an image, with a relative one, with an
    absolute one. *)
Definition providers : list Providers.provider :=
  [Providers.Provider "github" None None None
     [("strategy", Providers.JString "github")];
   Providers.Provider "local" (Some "img/local.png") None None [];
   Providers.Provider "orcid" (Some "https://orcid.org/logo.svg") None None []].

(** A directory at [./private.key], with one entry below it. *)
Definition private_key_directory : gmap string node :=
  {[ "./private.key" := Directory;
     "./private.key/notes.txt" := File (Toy.bytes "n") 420 ]}.

Definition static_files : gmap string node :=
  {[ "static/github.png" := File [] 420;
     "static/github.jpg" := File [] 420 ]}.

(** What [url.parse] returns for a base URL on localhost. *)
Definition parse_localhost (u : string) : Settings.Url :=
  {| Settings.protocol := Some "http:";
     Settings.slashes := true;
     Settings.hostname := Some "localhost" |}.

Definition no_variables : Settings.variables :=
  Settings.Variables None None None None None None None None None.

Definition two_origins : Settings.variables :=
  Settings.Variables None None None None None None None None
                     (Some "https://a.example,https://b.example").

(** A generator whose two halves do not match under [Toy.verify]. *)
Definition mismatched_generate : string * string := ("fresh-private", "fresh-public").

(** A disk with a key and one backup already taken. *)
Definition one_backup : gmap string node :=
  {[ "./private.key" := File (Toy.bytes "k2") 384;
     "./private.backup.1.key" := File (Toy.bytes "k1") 384 ]}.

End Toy2.

(** * Properties *)

Ltac project := cbn [privateKey publicKey disk umask effects console].

(** ** Strings *)

Lemma app_cons_string (x : ascii) (a b : string) :
  String x a +:+ b = String x (a +:+ b).
Proof. reflexivity. Qed.

Lemma app_assoc_string (a b c : string) : (a +:+ b) +:+ c = a +:+ (b +:+ c).
Proof.
  induction a as [|x a IH]; [done|]. by rewrite !app_cons_string, IH.
Qed.

Lemma length_app_string (a b : string) :
  String.length (a +:+ b) = (String.length a + String.length b)%nat.
Proof.
  induction a as [|x a IH]; [done|]. rewrite app_cons_string. simpl.
  by rewrite IH.
Qed.

Lemma app_inj_r_string (t a b : string) : a +:+ t = b +:+ t -> a = b.
Proof.
  revert b. induction a as [|x a IH]; intros [|y b] H.
  - done.
  - apply (f_equal String.length) in H.
    rewrite !length_app_string in H. simpl in H. lia.
  - apply (f_equal String.length) in H.
    rewrite !length_app_string in H. simpl in H. lia.
  - rewrite !app_cons_string in H. injection H as -> H. f_equal. by apply IH.
Qed.

(** ** Backup file names *)

Lemma file_0 (filename : string) : file filename 0 = filename +:+ ".key".
Proof. unfold file. by rewrite app_assoc_string. Qed.

Lemma file_S (filename : string) (i : nat) :
  file filename (S i) = filename +:+ ".backup." +:+ pretty (S i) +:+ ".key".
Proof. unfold file. by rewrite !app_assoc_string. Qed.

Lemma file_inj (filename : string) : Inj (=) (=) (file filename).
Proof.
  intros [|i] [|j] H; rewrite ?file_0, ?file_S in H;
    apply (inj (String.append filename)) in H.
  - done.
  - discriminate H.
  - discriminate H.
  - apply (inj (String.append ".backup.")) in H.
    apply app_inj_r_string in H. by apply (inj pretty) in H.
Qed.

Lemma file_other_base (a b : string) (i j : nat) (x y : ascii) (n : nat) :
  String.get n a = Some x -> String.get n b = Some y -> x <> y ->
  file a i <> file b j.
Proof.
  intros Ha Hb Hxy H. apply (f_equal (String.get n)) in H.
  unfold file in H. rewrite !app_assoc_string in H.
  assert (Hlt : forall s c, String.get n s = Some c -> (n < String.length s)%nat).
  { clear. induction n as [|n IH]; intros [|c' s] c Hs; simpl in *;
      try discriminate; [lia|]. apply IH in Hs. lia. }
  rewrite <- !append_correct1 in H by eauto. congruence.
Qed.

Lemma private_public (i j : nat) : file "./private" i <> file "./public" j.
Proof. by apply (file_other_base _ _ _ _ "r" "u" 3)%char. Qed.

Lemma private_key_name : file "./private" 0 = "./private.key".
Proof. reflexivity. Qed.

Lemma public_key_name : file "./public" 0 = "./public.key".
Proof. reflexivity. Qed.

(** ** The backup index *)

Lemma least_free_unique d filename i j :
  least_free d filename i -> least_free d filename j -> i = j.
Proof.
  intros [Hi Hlti] [Hj Hltj].
  destruct (Nat.lt_trichotomy i j) as [Hlt|[->|Hlt]]; [|done|].
  - apply Hltj in Hlt as [n Hn]. congruence.
  - apply Hlti in Hlt as [n Hn]. congruence.
Qed.

(** Among more names than there are entries on the disk, one is free. *)
Lemma free_index (d : gmap string node) (filename : string) :
  exists j : nat, (j < S (size d))%nat /\ d !! file filename j = None.
Proof.
  destruct (decide (Forall (fun j => is_Some (d !! file filename j))
                           (seq 0 (S (size d))))) as [Hall|Hex].
  - exfalso.
    set (names := file filename <$> seq 0 (S (size d))).
    assert (Hnodup : NoDup names).
    { apply (NoDup_fmap_2 _ (Inj0 := file_inj filename)). apply NoDup_seq. }
    assert (Hsub : (list_to_set names : gset string) ⊆ dom d).
    { intros p Hp. apply elem_of_list_to_set in Hp.
      apply list_elem_of_fmap in Hp as (j & -> & Hj).
      apply elem_of_dom. rewrite Forall_forall in Hall. by apply Hall. }
    apply subseteq_size in Hsub.
    rewrite size_list_to_set, size_dom in Hsub by done.
    unfold names in Hsub. rewrite length_fmap, length_seq in Hsub. lia.
  - apply not_Forall_Exists in Hex; [|apply _].
    apply Exists_exists in Hex as (j & Hj & Hfree).
    apply elem_of_seq in Hj. exists j. split; [lia|].
    by apply eq_None_not_Some.
Qed.

(** The [while] loop stops at the first free index at or after [index],
    provided one is within reach of the fuel; it changes nothing. *)
Lemma while_exists_run (filename : string) (s : process) (fuel index : nat) :
  (exists j : nat, (index <= j < index + fuel)%nat /\
                   disk s !! file filename j = None) ->
  exists i : nat,
    while_exists filename fuel index s = (Normal i, s) /\
    (index <= i)%nat /\
    disk s !! file filename i = None /\
    forall j : nat, (index <= j < i)%nat -> is_Some (disk s !! file filename j).
Proof.
  revert index. induction fuel as [|fuel IH]; intros index (j & Hj & Hfree).
  - lia.
  - simpl. unfold mbind, M_bind, fs.existsSync, get, mret, M_ret. simpl.
    destruct (disk s !! file filename index) as [n|] eqn:Hindex.
    + destruct (IH (S index)) as (i & Hrun & Hle & Hi & Hbelow).
      { exists j. split; [|done].
        destruct (decide (j = index)) as [->|]; [congruence|lia]. }
      exists i. split; [done|]. split; [lia|]. split; [done|].
      intros k Hk. destruct (decide (k = index)) as [->|]; [by eexists|].
      apply Hbelow. lia.
    + exists index. split; [done|]. split; [lia|]. split; [done|].
      intros k Hk. lia.
Qed.

Lemma while_exists_least (filename : string) (s : process) :
  exists i : nat,
    while_exists filename (S (size (disk s))) 0 s = (Normal i, s) /\
    least_free (disk s) filename i.
Proof.
  destruct (free_index (disk s) filename) as (j & Hj & Hfree).
  destruct (while_exists_run filename s (S (size (disk s))) 0)
    as (i & Hrun & _ & Hi & Hbelow).
  { exists j. split; [lia|done]. }
  exists i. split; [done|]. split; [done|].
  intros k Hk. apply Hbelow. lia.
Qed.

(** ** Paths and moves *)

Lemma prefix_app_self (a r : string) : String.prefix a (a +:+ r) = true.
Proof.
  induction a as [|c a IH]; [by destruct r|].
  rewrite app_cons_string. cbn [String.prefix]. by destruct (ascii_dec c c).
Qed.

Lemma prefix_elim (a k : string) :
  String.prefix a k = true -> exists r : string, k = a +:+ r.
Proof.
  revert k. induction a as [|c a IH]; intros k H.
  - by exists k.
  - destruct k as [|x k]; [discriminate H|].
    cbn [String.prefix] in H.
    destruct (ascii_dec c x) as [->|]; [|discriminate H].
    destruct (IH k H) as [r ->]. by exists r.
Qed.

Lemma skip_app (a b : string) : fs.skip (String.length a) (a +:+ b) = b.
Proof.
  induction a as [|c a IH]; [by destruct b|].
  rewrite app_cons_string. exact IH.
Qed.

Lemma below_intro (dir r : string) : fs.below dir (dir +:+ "/" +:+ r) = true.
Proof.
  unfold fs.below. rewrite <- app_assoc_string. apply prefix_app_self.
Qed.

Lemma below_elim (dir p : string) :
  fs.below dir p = true -> exists r : string, p = dir +:+ "/" +:+ r.
Proof.
  unfold fs.below. intros [r ->]%prefix_elim. exists r.
  by rewrite app_assoc_string.
Qed.

Lemma below_false (dir p : string) :
  (forall r : string, p <> dir +:+ "/" +:+ r) -> fs.below dir p = false.
Proof.
  intros H. destruct (fs.below dir p) eqn:Hb; [|done].
  apply below_elim in Hb as [r ->]. by destruct (H r).
Qed.

(** The lookup in a disk after a move. *)
Lemma lookup_moved (oldPath newPath : string) (n : node) (d : gmap string node)
    (p : string) :
  fs.moved oldPath newPath n d !! p = fs.moved_source oldPath newPath n d p.
Proof.
  unfold fs.moved. rewrite map_lookup_imap, lookup_gset_to_gmap.
  case_guard as Hin; [done|]. cbn.
  unfold fs.moved_source.
  case_bool_decide as Hnew; [subst; set_solver|].
  destruct (fs.below newPath p) eqn:Hb.
  - apply below_elim in Hb as [r ->].
    rewrite skip_app.
    destruct (d !! (oldPath +:+ "/" +:+ r)) as [x|] eqn:Hx; [|done].
    exfalso. apply Hin. apply elem_of_union_l, elem_of_union_r.
    apply elem_of_map. exists (oldPath +:+ "/" +:+ r). split.
    + by rewrite skip_app.
    + apply elem_of_filter. split; [apply below_intro|].
      apply elem_of_dom. by eexists.
  - destruct (bool_decide (p = oldPath) || fs.below oldPath p); [done|].
    symmetry. apply not_elem_of_dom. set_solver.
Qed.

Lemma lookup_moved_target oldPath newPath n d :
  fs.moved oldPath newPath n d !! newPath = Some n.
Proof.
  rewrite lookup_moved. unfold fs.moved_source.
  by rewrite bool_decide_eq_true_2.
Qed.

Lemma lookup_moved_source oldPath newPath n d :
  oldPath <> newPath -> fs.below newPath oldPath = false ->
  fs.moved oldPath newPath n d !! oldPath = None.
Proof.
  intros Hne Hb. rewrite lookup_moved. unfold fs.moved_source.
  rewrite bool_decide_eq_false_2 by done. rewrite Hb.
  by rewrite (bool_decide_eq_true_2 (oldPath = oldPath)).
Qed.

Lemma lookup_moved_below oldPath newPath n d r :
  fs.moved oldPath newPath n d !! (newPath +:+ "/" +:+ r)
  = d !! (oldPath +:+ "/" +:+ r).
Proof.
  rewrite lookup_moved. unfold fs.moved_source.
  rewrite bool_decide_eq_false_2.
  - by rewrite below_intro, skip_app.
  - intros H. apply (f_equal String.length) in H.
    rewrite !length_app_string in H. simpl in H. lia.
Qed.

Lemma lookup_moved_other oldPath newPath n d p :
  p <> oldPath -> p <> newPath ->
  fs.below oldPath p = false -> fs.below newPath p = false ->
  fs.moved oldPath newPath n d !! p = d !! p.
Proof.
  intros Ho Hn Hbo Hbn. rewrite lookup_moved. unfold fs.moved_source.
  rewrite !bool_decide_eq_false_2 by done. by rewrite Hbn, Hbo.
Qed.

(** ** Backup names and paths below them *)

Lemma has_dot_pretty_char (d : N) :
  bool_decide (pretty_N_char d = "."%char) = false.
Proof.
  unfold pretty_N_char. by repeat case_match.
Qed.

Lemma has_dot_pretty_go (x : N) :
  forall s : string, has_char "." s = false -> has_char "." (pretty_N_go x s) = false.
Proof.
  induction (N.lt_wf_0 x) as [x _ IH]. intros s Hs.
  destruct (decide (x = 0)%N) as [->|Hx]; [by rewrite pretty_N_go_0|].
  rewrite pretty_N_go_step by lia. apply IH.
  - apply N.div_lt; lia.
  - cbn [has_char]. by rewrite has_dot_pretty_char.
Qed.

Lemma has_dot_pretty (i : nat) : has_char "." (pretty i) = false.
Proof.
  unfold pretty, pretty_nat, pretty, pretty_N.
  case_decide; [done|]. by apply has_dot_pretty_go.
Qed.

Lemma app_char_inj (c : ascii) (a b u v : string) :
  has_char c a = false -> has_char c b = false ->
  a +:+ String c u = b +:+ String c v -> a = b /\ u = v.
Proof.
  revert b. induction a as [|x a IH]; intros [|y b] Ha Hb H.
  - by injection H.
  - rewrite app_cons_string in H. injection H as <- _.
    cbn [has_char] in Hb. by rewrite bool_decide_eq_true_2 in Hb.
  - rewrite app_cons_string in H. injection H as -> _.
    cbn [has_char] in Ha. by rewrite bool_decide_eq_true_2 in Ha.
  - rewrite !app_cons_string in H. injection H as -> H.
    cbn [has_char] in Ha, Hb.
    apply orb_false_elim in Ha as [_ Ha]. apply orb_false_elim in Hb as [_ Hb].
    destruct (IH b Ha Hb H) as [-> ->]. done.
Qed.

(** No backup name of a file is a path below a backup name of the same
    file. *)
Lemma file_not_below (filename : string) (i j : nat) (r : string) :
  file filename j <> file filename i +:+ "/" +:+ r.
Proof.
  intros H.
  destruct i as [|i], j as [|j]; rewrite ?file_0, ?file_S in H;
    rewrite ?app_assoc_string in H;
    apply (inj (String.append filename)) in H.
  - discriminate H.
  - discriminate H.
  - discriminate H.
  - apply (inj (String.append ".backup.")) in H.
    apply (app_char_inj "." (pretty (S j)) (pretty (S i))) in H
      as [_ H]; [discriminate H|apply has_dot_pretty..].
Qed.

Lemma file_below_false (filename : string) (i j : nat) :
  fs.below (file filename i) (file filename j) = false.
Proof. apply below_false. intros r. apply file_not_below. Qed.

Lemma file_app_other_base (a b : string) (i j : nat) (x y : ascii) (n : nat)
    (u v : string) :
  String.get n a = Some x -> String.get n b = Some y -> x <> y ->
  file a i +:+ u <> file b j +:+ v.
Proof.
  intros Ha Hb Hxy H. apply (f_equal (String.get n)) in H.
  unfold file in H. rewrite !app_assoc_string in H.
  assert (Hlt : forall s c, String.get n s = Some c -> (n < String.length s)%nat).
  { clear. induction n as [|n IH]; intros [|c' s] c Hs; simpl in *;
      try discriminate; [lia|]. apply IH in Hs. lia. }
  rewrite <- !append_correct1 in H by eauto. congruence.
Qed.

Lemma private_public_below (i j : nat) :
  fs.below (file "./private" i) (file "./public" j) = false.
Proof.
  apply below_false. intros r H.
  assert (file "./public" j +:+ "" = file "./private" i +:+ ("/" +:+ r)) as H'.
  { rewrite <- H. clear. induction (file "./public" j) as [|c s IH]; [done|].
    by rewrite app_cons_string, IH. }
  by apply (file_app_other_base _ _ _ _ "u" "r" 3)%char in H'.
Qed.

Lemma public_private_below (i j : nat) :
  fs.below (file "./public" i) (file "./private" j) = false.
Proof.
  apply below_false. intros r H.
  assert (file "./private" j +:+ "" = file "./public" i +:+ ("/" +:+ r)) as H'.
  { rewrite <- H. clear. induction (file "./private" j) as [|c s IH]; [done|].
    by rewrite app_cons_string, IH. }
  by apply (file_app_other_base _ _ _ _ "r" "u" 3)%char in H'.
Qed.

(** ** The disk after a rotation *)

Lemma rotated_0 filename d : rotated filename 0 d = d.
Proof. reflexivity. Qed.

Lemma rotated_lookup_other filename i d p :
  p <> file filename 0 -> p <> file filename i ->
  fs.below (file filename 0) p = false ->
  fs.below (file filename i) p = false ->
  rotated filename i d !! p = d !! p.
Proof.
  intros H0 Hi Hb0 Hbi. unfold rotated.
  destruct i as [|i]; [done|].
  destruct (d !! file filename 0) as [n|]; [|done].
  by apply lookup_moved_other.
Qed.

(** A rotation of one file leaves the backup names of the same file
    other than the two it renames as they were. *)
Lemma rotated_lookup_family filename i d j :
  j <> 0%nat -> j <> i ->
  rotated filename i d !! file filename j = d !! file filename j.
Proof.
  intros H0 Hi. apply rotated_lookup_other;
    [intros H; by apply file_inj in H..|apply file_below_false|apply file_below_false].
Qed.

(** A rotation of the private key file leaves the names of the public
    key file as they were, and the other way round. *)
Lemma rotated_private_public i d j :
  rotated "./private" i d !! file "./public" j = d !! file "./public" j.
Proof.
  apply rotated_lookup_other;
    [intros H; symmetry in H; by apply private_public in H..
    |apply private_public_below|apply private_public_below].
Qed.

Lemma rotated_public_private i d j :
  rotated "./public" i d !! file "./private" j = d !! file "./private" j.
Proof.
  apply rotated_lookup_other;
    [apply private_public..
    |apply public_private_below|apply public_private_below].
Qed.

Lemma rotated_lookup_0 filename i d :
  least_free d filename i -> rotated filename i d !! file filename 0 = None.
Proof.
  intros [Hfree Hbelow]. unfold rotated.
  destruct i as [|i]; [done|].
  destruct (Hbelow 0%nat) as [n Hn]; [lia|]. rewrite Hn.
  apply lookup_moved_source; [|apply file_below_false].
  intros H. by apply file_inj in H.
Qed.

Lemma rotated_lookup_i filename i d :
  least_free d filename (S i) ->
  rotated filename (S i) d !! file filename (S i) = d !! file filename 0 /\
  is_Some (d !! file filename 0).
Proof.
  intros [Hfree Hbelow]. unfold rotated.
  destruct (Hbelow 0%nat) as [n Hn]; [lia|]. rewrite Hn.
  by rewrite lookup_moved_target.
Qed.

Lemma rotated_lookup_below filename i d r :
  least_free d filename (S i) ->
  rotated filename (S i) d !! (file filename (S i) +:+ "/" +:+ r)
  = d !! (file filename 0 +:+ "/" +:+ r).
Proof.
  intros [Hfree Hbelow]. unfold rotated.
  destruct (Hbelow 0%nat) as [n Hn]; [lia|]. rewrite Hn.
  apply lookup_moved_below.
Qed.

Lemma app_nil_r_string (s : string) : s +:+ "" = s.
Proof. induction s as [|c s IH]; [done|]. by rewrite app_cons_string, IH. Qed.

Lemma private_public_app (i j : nat) (u v : string) :
  file "./private" i +:+ u <> file "./public" j +:+ v.
Proof. by apply (file_app_other_base _ _ _ _ "r" "u" 3)%char. Qed.

(** A rotation of the public key file leaves every path that starts
    with a name of the private key file as it was, and the other way
    round. *)
Lemma rotated_public_private_app i j d u :
  rotated "./public" j d !! (file "./private" i +:+ u)
  = d !! (file "./private" i +:+ u).
Proof.
  apply rotated_lookup_other.
  - rewrite <- (app_nil_r_string (file "./public" 0)). apply private_public_app.
  - rewrite <- (app_nil_r_string (file "./public" j)). apply private_public_app.
  - apply below_false. intros r. apply private_public_app.
  - apply below_false. intros r. apply private_public_app.
Qed.

Lemma rotated_private_public_app i j d u :
  rotated "./private" i d !! (file "./public" j +:+ u)
  = d !! (file "./public" j +:+ u).
Proof.
  apply rotated_lookup_other.
  - rewrite <- (app_nil_r_string (file "./private" 0)).
    intros H. symmetry in H. by apply private_public_app in H.
  - rewrite <- (app_nil_r_string (file "./private" i)).
    intros H. symmetry in H. by apply private_public_app in H.
  - apply below_false. intros r H. symmetry in H. by apply private_public_app in H.
  - apply below_false. intros r H. symmetry in H. by apply private_public_app in H.
Qed.

(** The disk after both rotations and both writes (lines 114-129): what
    was at the two key paths is at the backup names, what was below them
    is below the backup names, and every path off these names is as it
    was. *)
Lemma saved_disk_keeps (d : gmap string node) (i j : nat) (priv pub : node) :
  least_free d "./private" i ->
  least_free d "./public" j ->
  let d' := <["./public.key" := pub]>
              (<["./private.key" := priv]>
                 (rotated "./public" j (rotated "./private" i d))) in
  (forall n : node,
      d !! "./private.key" = Some n ->
      (0 < i)%nat /\ d' !! file "./private" i = Some n) /\
  (forall n : node,
      d !! "./public.key" = Some n ->
      (0 < j)%nat /\ d' !! file "./public" j = Some n) /\
  (forall r : string,
      (0 < i)%nat ->
      d' !! (file "./private" i +:+ "/" +:+ r) = d !! ("./private.key" +:+ "/" +:+ r)) /\
  (forall r : string,
      (0 < j)%nat ->
      d' !! (file "./public" j +:+ "/" +:+ r) = d !! ("./public.key" +:+ "/" +:+ r)) /\
  (forall p : string,
      p <> "./private.key" -> p <> "./public.key" ->
      p <> file "./private" i -> p <> file "./public" j ->
      fs.below "./private.key" p = false -> fs.below "./public.key" p = false ->
      fs.below (file "./private" i) p = false ->
      fs.below (file "./public" j) p = false ->
      d' !! p = d !! p).
Proof.
  intros Hi Hj. cbv zeta.
  assert (Hj' : least_free (rotated "./private" i d) "./public" j).
  { destruct Hj as [Hfree Hbelow]. split.
    - by rewrite rotated_private_public.
    - intros k Hk. rewrite rotated_private_public. by apply Hbelow. }
  repeat split.
  - destruct i as [|i]; [|lia].
    destruct Hi as [Hfree _]. rewrite private_key_name in Hfree. congruence.
  - destruct i as [|i].
    { destruct Hi as [Hfree _]. rewrite private_key_name in Hfree. congruence. }
    rewrite lookup_insert_ne by (symmetry; apply (private_public (S i) 0)).
    rewrite lookup_insert_ne.
    2:{ rewrite <- private_key_name. intros E. by apply file_inj in E. }
    rewrite rotated_public_private.
    destruct (rotated_lookup_i "./private" i d Hi) as [-> _].
    by rewrite private_key_name.
  - destruct j as [|j]; [|lia].
    destruct Hj as [Hfree _]. rewrite public_key_name in Hfree. congruence.
  - destruct j as [|j].
    { destruct Hj as [Hfree _]. rewrite public_key_name in Hfree. congruence. }
    rewrite lookup_insert_ne.
    2:{ rewrite <- public_key_name. intros E. by apply file_inj in E. }
    rewrite lookup_insert_ne by (apply (private_public 0 (S j))).
    destruct (rotated_lookup_i "./public" j _ Hj') as [-> _].
    by rewrite rotated_private_public, public_key_name.
  - intros r Hpos. destruct i as [|i]; [lia|].
    rewrite lookup_insert_ne.
    2:{ rewrite <- public_key_name, <- (app_nil_r_string (file "./public" 0)).
        intros E. symmetry in E. by apply private_public_app in E. }
    rewrite lookup_insert_ne.
    2:{ rewrite <- private_key_name. apply file_not_below. }
    rewrite rotated_public_private_app.
    rewrite (rotated_lookup_below "./private" i d r Hi).
    by rewrite private_key_name.
  - intros r Hpos. destruct j as [|j]; [lia|].
    rewrite lookup_insert_ne.
    2:{ rewrite <- public_key_name. apply file_not_below. }
    rewrite lookup_insert_ne.
    2:{ rewrite <- private_key_name, <- (app_nil_r_string (file "./private" 0)).
        apply private_public_app. }
    rewrite (rotated_lookup_below "./public" j _ r Hj').
    by rewrite rotated_private_public_app, public_key_name.
  - intros p Hn1 Hn2 Hn3 Hn4 Hb1 Hb2 Hb3 Hb4.
    rewrite lookup_insert_ne by done. rewrite lookup_insert_ne by done.
    rewrite rotated_lookup_other by (by rewrite ?public_key_name).
    by rewrite rotated_lookup_other by (by rewrite ?private_key_name).
Qed.

(** Lines 115-123 on any process state. *)
Lemma backup_run (filename : string) (s : process) :
  exists i : nat,
    least_free (disk s) filename i /\
    backup filename s =
      (Normal tt,
       Process (privateKey s) (publicKey s) (rotated filename i (disk s))
               (umask s) (effects s ++ renames filename i)
               (console s ++ warnings filename i)).
Proof.
  destruct (while_exists_least filename s) as (i & Hrun & Hleast).
  exists i. split; [done|].
  unfold backup, mbind, M_bind, get. rewrite Hrun.
  destruct i as [|i].
  - unfold mret, M_ret, rotated. simpl. rewrite !app_nil_r. by destruct s.
  - destruct Hleast as [Hfree Hbelow].
    destruct (Hbelow 0%nat) as [n Hn]; [lia|].
    unfold console_warn, modify, fs.renameSync, mbind, M_bind, get, rotated.
    cbn [disk print]. rewrite Hn, Hfree.
    rewrite (bool_decide_eq_false_2 (file filename 0 = file filename (S i)))
      by (intros H; by apply file_inj in H).
    rewrite file_below_false.
    by destruct n.
Qed.

(** C2. For every base file name and every disk, the [while] loop of the
    backup rotation returns the smallest index [i] whose candidate name
    ([filename.key] for 0, [filename.backup.i.key] above) is not on the
    disk.  With [i = 0] nothing is renamed; with [i > 0] the one effect is
    the rename of candidate 0 to candidate [i], a name that was free: the
    entry moves there, with the entries below it when it is a directory,
    and no other entry of the disk changes.  Afterwards candidate 0 is
    free. *)
Theorem backup_rotation (filename : string) (s : process) :
  file filename 0 = filename +:+ ".key" /\
  (forall k : nat,
      file filename (S k) = filename +:+ ".backup." +:+ pretty (S k) +:+ ".key") /\
  exists (i : nat) (s' : process),
    while_exists filename (S (size (disk s))) 0 s = (Normal i, s) /\
    disk s !! file filename i = None /\
    (forall j : nat, (j < i)%nat -> is_Some (disk s !! file filename j)) /\
    backup filename s = (Normal tt, s') /\
    effects s' = effects s ++ match i with
                              | O => []
                              | S _ => [Rename (file filename 0) (file filename i)]
                              end /\
    match i with
    | O => disk s' = disk s
    | S _ => is_Some (disk s !! file filename 0) /\
             disk s' !! file filename i = disk s !! file filename 0 /\
             forall r : string,
               disk s' !! (file filename i +:+ "/" +:+ r)
               = disk s !! (file filename 0 +:+ "/" +:+ r)
    end /\
    (forall p : string,
        p <> file filename 0 -> p <> file filename i ->
        fs.below (file filename 0) p = false ->
        fs.below (file filename i) p = false ->
        disk s' !! p = disk s !! p) /\
    disk s' !! file filename 0 = None.
Proof.
  split; [apply file_0|]. split; [apply file_S|].
  destruct (while_exists_least filename s) as (i & Hrun & Hleast).
  destruct (backup_run filename s) as (i' & Hleast' & Hbackup).
  assert (i' = i) as -> by eauto using least_free_unique.
  eexists i, _. split; [exact Hrun|].
  split; [apply Hleast|]. split; [apply Hleast|].
  split; [exact Hbackup|]. project.
  split; [done|].
  split.
  { destruct i as [|i]; [done|].
    destruct (rotated_lookup_i filename i (disk s) Hleast) as [Heq Hsome].
    split; [done|]. split; [done|].
    intros r. by apply rotated_lookup_below. }
  split; [intros p H0 Hi Hb0 Hbi; by apply rotated_lookup_other|].
  by apply rotated_lookup_0.
Qed.

(** ** Running statements *)

Lemma bind_run {A B} (m : M A) (f : A -> M B) (s : process) (a : A) (s' : process) :
  m s = (Normal a, s') -> (m ≫= f) s = f a s'.
Proof. intros H. unfold mbind, M_bind. by rewrite H. Qed.

Lemma fs_writeFileSync_new (p : string) (k : key) (s : process) :
  disk s !! p = None ->
  fs.writeFileSync p (Some k) s =
    (Normal tt,
     set_disk (<[p := File (key_bytes k) (Z.land 438 (Z.lnot (umask s)))]> (disk s))
              (Write p (key_bytes k)) s).
Proof.
  intros H. unfold fs.writeFileSync, mbind, M_bind, get. by rewrite H.
Qed.

Lemma fs_chmodSync_file (p mode : string) (bits : Z) (data : list Byte.byte)
    (old : Z) (s : process) :
  fs.parseFileMode mode = Some bits ->
  disk s !! p = Some (File data old) ->
  fs.chmodSync p mode s =
    (Normal tt, set_disk (<[p := File data bits]> (disk s)) (Chmod p mode) s).
Proof.
  intros Hm H. unfold fs.chmodSync. rewrite Hm.
  unfold mbind, M_bind, get. by rewrite H.
Qed.

(** ** The [try] block and the [catch] block *)

Section Runs.

Variable sign : key -> jwtOptions -> error + string.
Variable verify : string -> key -> option error.
Variable generate : string * string.
Variable env : environment.

Local Abbreviation private_path :=
  (Js.or_env (privateKeyPath env) "./private.key").
Local Abbreviation public_path :=
  (Js.or_env (publicKeyPath env) "./public.key").

(** Lines 90-95 by cases on the disk and on the round trip. *)
Lemma try_block_run (s : process) :
  try_block sign verify env s =
    match disk s !! private_path with
    | None => (Throw (fs.ENOENT "open" private_path), s)
    | Some Directory => (Throw (fs.EISDIR "read" None), s)
    | Some (File priv _) =>
        let s1 := set_privateKey (Buffer priv) s in
        match disk s !! public_path with
        | None => (Throw (fs.ENOENT "open" public_path), s1)
        | Some Directory => (Throw (fs.EISDIR "read" None), s1)
        | Some (File pub _) =>
            let s2 := set_publicKey (Buffer pub) s1 in
            match roundtrip sign verify env (Buffer priv) (Buffer pub) with
            | Some e => (Throw e, s2)
            | None => (Normal tt, print log msg_loaded s2)
            end
        end
    end.
Proof.
  unfold try_block, fs.readFileSync, mbind, M_bind, get, modify, throw,
    mret, M_ret.
  destruct (disk s !! _) as [[priv m|]|]; [|done|done]. simpl.
  destruct (disk s !! _) as [[pub m'|]|]; [|done|done]. simpl.
  unfold roundtrip, jwt_sign, jwt_verify, throw, mret, M_ret.
  destruct (sign _ _) as [e|token]; [done|].
  by destruct (verify _ _).
Qed.

Local Ltac run_try_block :=
  rewrite try_block_run; cbv zeta;
  unfold start; cbn [disk].

(** The [try] block touches neither the disk nor the list of effects,
    and prints at most the line for a loaded pair. *)
Lemma try_block_frame (s : process) :
  let r := try_block sign verify env s in
  disk (snd r) = disk s /\ effects (snd r) = effects s /\
  umask (snd r) = umask s /\
  (console (snd r) = console s \/
   fst r = Normal tt /\ console (snd r) = console s ++ [(log, msg_loaded)]).
Proof.
  intros r. subst r. rewrite try_block_run.
  destruct (disk s !! private_path) as [[priv m|]|]; simpl; auto.
  destruct (disk s !! public_path) as [[pub m'|]|]; simpl; auto.
  destruct (roundtrip _ _ _ _ _); simpl; auto 6.
Qed.

(** Lines 98-107: one line on the error stream, then exit status 1. *)
Lemma report_run (e : error) (s : process) :
  exists line : string,
    report e s = (Exit 1, print err line s) /\
    line = (if bool_decide (name e = "Error")
               && bool_decide (code e = Some "ENOENT")
            then msg_missing (path e)
            else if bool_decide (name e = "JsonWebTokenError")
                 then msg_invalid
                 else msg_unknown e).
Proof.
  eexists. split; [|reflexivity].
  unfold report. by repeat case_match.
Qed.

Lemma catch_block_provided (e : error) (s : process) :
  provided env s = true ->
  catch_block generate env e s = report e s.
Proof.
  intros Hp. unfold catch_block, mbind, M_bind, get. rewrite Hp.
  destruct (report_run e s) as (line & -> & _). done.
Qed.

(** Lines 109-129 when the guard of line 97 is false: the new pair is
    generated, each of the two names is rotated, and the pair is saved
    with modes 600 and 644. *)
Lemma catch_block_generates (e : error) (s : process) :
  provided env s = false ->
  exists i j : nat,
    least_free (disk s) "./private" i /\
    least_free (disk s) "./public" j /\
    catch_block generate env e s =
      (Normal tt,
       Process
         (Some (Text (fst generate))) (Some (Text (snd generate)))
         (<["./public.key" := File (list_byte_of_string (snd generate)) 420]>
            (<["./private.key" := File (list_byte_of_string (fst generate)) 384]>
               (rotated "./public" j (rotated "./private" i (disk s)))))
         (umask s)
         (effects s ++ renames "./private" i ++ renames "./public" j ++
            [Write "./private.key" (list_byte_of_string (fst generate));
             Chmod "./private.key" "600";
             Write "./public.key" (list_byte_of_string (snd generate));
             Chmod "./public.key" "644"])
         (console s ++ [(log, msg_generating)] ++
            warnings "./private" i ++ warnings "./public" j)).
Proof.
  intros Hp. unfold catch_block.
  rewrite (bind_run get _ s s s) by done. rewrite Hp.
  rewrite (bind_run (mret tt) _ s tt s) by done.
  destruct s as [pk0 pubk0 d mask eff con]. clear Hp.
  rewrite (bind_run _ _ _ tt
             (Process pk0 pubk0 d mask eff (con ++ [(log, msg_generating)])))
    by done.
  rewrite (bind_run _ _ _ tt
             (Process (Some (Text (fst generate))) pubk0 d mask eff
                      (con ++ [(log, msg_generating)])))
    by done.
  set (s2 := Process (Some (Text (fst generate))) (Some (Text (snd generate)))
                     d mask eff (con ++ [(log, msg_generating)])).
  rewrite (bind_run _ _ _ tt s2) by done.
  destruct (backup_run "./private" s2) as (i & Hi & Hrun1).
  pose (s3 := Process (Some (Text (fst generate))) (Some (Text (snd generate)))
                      (rotated "./private" i d) mask
                      (eff ++ renames "./private" i)
                      ((con ++ [(log, msg_generating)]) ++ warnings "./private" i)).
  change (backup "./private" s2 = (Normal tt, s3)) in Hrun1.
  change (least_free d "./private" i) in Hi.
  destruct (backup_run "./public" s3) as (j & Hj & Hrun2).
  pose (s4 := Process (Some (Text (fst generate))) (Some (Text (snd generate)))
                      (rotated "./public" j (rotated "./private" i d)) mask
                      ((eff ++ renames "./private" i) ++ renames "./public" j)
                      (((con ++ [(log, msg_generating)]) ++ warnings "./private" i)
                         ++ warnings "./public" j)).
  change (backup "./public" s3 = (Normal tt, s4)) in Hrun2.
  change (least_free (rotated "./private" i d) "./public" j) in Hj.
  assert (Hj0 : least_free d "./public" j).
  { destruct Hj as [Hfree Hbelow]. split.
    - by rewrite rotated_private_public in Hfree.
    - intros k Hk. specialize (Hbelow k Hk).
      by rewrite rotated_private_public in Hbelow. }
  exists i, j. split; [exact Hi|]. split; [exact Hj0|].
  assert (Hpriv : disk s4 !! "./private.key" = None).
  { unfold s4. project.
    rewrite <- private_key_name, rotated_public_private.
    by apply (rotated_lookup_0 "./private"). }
  assert (Hpub : rotated "./public" j (rotated "./private" i d) !! "./public.key"
                 = None).
  { by apply (rotated_lookup_0 "./public"). }
  rewrite (bind_run (for_of _ _) _ s2 tt s4).
  2:{ unfold for_of. rewrite (bind_run _ _ s2 tt s3) by done.
      by rewrite (bind_run _ _ s3 tt s4). }
  rewrite (bind_run get _ s4 s4 s4) by done.
  change (privateKey s4) with (Some (Text (fst generate))).
  rewrite (bind_run _ _ s4 tt _ (fs_writeFileSync_new _ _ _ Hpriv)).
  unfold set_disk, s4. project; cbn [key_bytes].
  clear s2 s3 s4 Hrun1 Hrun2 Hpriv.
  erewrite bind_run
    by (eapply (fs_chmodSync_file _ _ 384); [done|apply lookup_insert_eq]).
  unfold set_disk. project. rewrite insert_insert_eq.
  erewrite bind_run by (unfold get; reflexivity).
  erewrite bind_run.
  2:{ apply fs_writeFileSync_new. project.
      by rewrite lookup_insert_ne. }
  unfold set_disk. project; cbn [key_bytes].
  erewrite (fs_chmodSync_file _ _ 420); [|done|apply lookup_insert_eq].
  unfold set_disk. project. rewrite insert_insert_eq.
  by rewrite <- !app_assoc.
Qed.


(** ** The whole key setup *)

Local Abbreviation resolve' := (resolve sign verify generate env).

Lemma or_env_default (v : option string) (d : string) :
  Js.truthy_env v = false -> Js.or_env v d = d.
Proof. by destruct v as [[|c v]|]. Qed.

Lemma resolve_loaded (s s1 : process) :
  try_block sign verify env s = (Normal tt, s1) ->
  resolve' s = (Normal (privateKey s1, publicKey s1), s1).
Proof.
  intros H. unfold resolve, keySetup, mbind, M_bind, try_catch.
  by rewrite H.
Qed.

Lemma resolve_caught (s s1 : process) (e : error) :
  try_block sign verify env s = (Throw e, s1) ->
  resolve' s =
    (catch_block generate env e;; s' ← get; mret (privateKey s', publicKey s')) s1.
Proof.
  intros H. unfold resolve, keySetup, mbind, M_bind, try_catch.
  by rewrite H.
Qed.

Lemma resolve_fatal (s s1 : process) (e : error) :
  try_block sign verify env s = (Throw e, s1) ->
  provided env s1 = true ->
  resolve' s =
    (Exit 1,
     print err (if bool_decide (name e = "Error")
                   && bool_decide (code e = Some "ENOENT")
                then msg_missing (path e)
                else if bool_decide (name e = "JsonWebTokenError")
                     then msg_invalid
                     else msg_unknown e) s1).
Proof.
  intros H Hp. rewrite (resolve_caught _ _ _ H).
  unfold mbind, M_bind. rewrite catch_block_provided by done.
  by destruct (report_run e s1) as (line & -> & ->).
Qed.

Lemma resolve_generated (s s1 : process) (e : error) :
  try_block sign verify env s = (Throw e, s1) ->
  provided env s1 = false ->
  exists i j : nat,
    least_free (disk s) "./private" i /\
    least_free (disk s) "./public" j /\
    resolve' s =
      (Normal (Some (Text (fst generate)), Some (Text (snd generate))),
       Process
         (Some (Text (fst generate))) (Some (Text (snd generate)))
         (<["./public.key" := File (list_byte_of_string (snd generate)) 420]>
            (<["./private.key" := File (list_byte_of_string (fst generate)) 384]>
               (rotated "./public" j (rotated "./private" i (disk s)))))
         (umask s)
         (effects s ++ renames "./private" i ++ renames "./public" j ++
            [Write "./private.key" (list_byte_of_string (fst generate));
             Chmod "./private.key" "600";
             Write "./public.key" (list_byte_of_string (snd generate));
             Chmod "./public.key" "644"])
         (console s1 ++ [(log, msg_generating)] ++
            warnings "./private" i ++ warnings "./public" j)).
Proof.
  intros H Hp. rewrite (resolve_caught _ _ _ H).
  destruct (catch_block_generates e s1 Hp) as (i & j & Hi & Hj & Hrun).
  pose proof (try_block_frame s) as Hframe. rewrite H in Hframe.
  simpl in Hframe. destruct Hframe as (Hdisk & Heff & Hmask & _).
  rewrite Hdisk, Heff, Hmask in *.
  exists i, j. split; [done|]. split; [done|].
  unfold mbind, M_bind. by rewrite Hrun.
Qed.

(** The outcome of [resolve] on a fresh process, by cases on the [try]
    block and the guard of line 97. *)
Lemma resolve_cases (d : gmap string node) (mask : Z) :
  (exists s1, try_block sign verify env (start d mask) = (Normal tt, s1) /\
              resolve' (start d mask) = (Normal (privateKey s1, publicKey s1), s1) /\
              disk s1 = d /\ effects s1 = [] /\ console s1 = [(log, msg_loaded)]) \/
  (exists e s1 line,
      try_block sign verify env (start d mask) = (Throw e, s1) /\
      provided env s1 = true /\
      resolve' (start d mask) = (Exit 1, print err line s1) /\
      disk s1 = d /\ effects s1 = [] /\ console s1 = []) \/
  (exists e s1 s',
      try_block sign verify env (start d mask) = (Throw e, s1) /\
      provided env s1 = false /\
      resolve' (start d mask) =
        (Normal (Some (Text (fst generate)), Some (Text (snd generate))), s') /\
      (log, msg_generating) ∈ console s' /\
      Write "./private.key" (list_byte_of_string (fst generate)) ∈ effects s').
Proof.
  pose proof (try_block_frame (start d mask)) as Hframe.
  destruct (try_block sign verify env (start d mask)) as [[[]|e|c|] s1] eqn:Htry.
  - left. exists s1. clear Hframe.
    split; [done|]. split; [by apply resolve_loaded|].
    rewrite try_block_run in Htry. cbv zeta in Htry.
    repeat case_match; by simplify_eq.
  - simpl in Hframe. destruct Hframe as (Hdisk & Heff & _ & [Hc|[Hn _]]);
      [|discriminate].
    destruct (provided env s1) eqn:Hp.
    + right. left. eexists e, s1, _. split; [done|]. split; [done|].
      split; [by apply resolve_fatal|]. done.
    + right. right.
      destruct (resolve_generated _ _ _ Htry Hp) as (i & j & _ & _ & Hrun).
      eexists e, s1, _. split; [done|]. split; [done|].
      split; [exact Hrun|]. simpl. split.
      * rewrite Hc. simpl. apply list_elem_of_here.
      * rewrite !elem_of_app. right. right. apply list_elem_of_here.
  - exfalso. rewrite try_block_run in Htry. cbv zeta in Htry.
    repeat case_match; simplify_eq.
  - exfalso. rewrite try_block_run in Htry. cbv zeta in Htry.
    repeat case_match; simplify_eq.
Qed.

(** ** Loading an existing pair *)

(** C5. With no key path configured and, at the default paths, two
    files that pass the sign-then-verify test, [resolve] returns the
    bytes of those two files, leaves the disk as it was and makes no
    write, rename or chmod. *)
Theorem valid_default_pair_loaded (d : gmap string node) (mask : Z)
    (priv pub : list Byte.byte) (mpriv mpub : Z) :
  Js.truthy_env (privateKeyPath env) = false ->
  Js.truthy_env (publicKeyPath env) = false ->
  d !! "./private.key" = Some (File priv mpriv) ->
  d !! "./public.key" = Some (File pub mpub) ->
  roundtrip sign verify env (Buffer priv) (Buffer pub) = None ->
  exists s' : process,
    resolve' (start d mask) = (Normal (Some (Buffer priv), Some (Buffer pub)), s') /\
    disk s' = d /\
    effects s' = [] /\
    console s' = [(log, msg_loaded)].
Proof.
  intros Hpriv Hpub Hd1 Hd2 Hok.
  exists (Process (Some (Buffer priv)) (Some (Buffer pub)) d mask []
                  [(log, msg_loaded)]).
  split; [|done].
  rewrite (resolve_loaded _ (Process (Some (Buffer priv)) (Some (Buffer pub))
                                     d mask [] [(log, msg_loaded)]));
    [reflexivity|].
  run_try_block.
  rewrite !or_env_default by done. by rewrite Hd1, Hd2, Hok.
Qed.

(** C1 (as the code has it). With no key path configured and, at the
    default paths, two files that fail the sign-then-verify test,
    [resolve] exits with status 1 after one line on the error stream:
    both Buffers were read, so the guard of line 97 holds.  Nothing is
    renamed, generated or written. *)
Theorem invalid_default_pair_is_fatal (d : gmap string node) (mask : Z)
    (priv pub : list Byte.byte) (mpriv mpub : Z) (e : error) :
  Js.truthy_env (privateKeyPath env) = false ->
  Js.truthy_env (publicKeyPath env) = false ->
  d !! "./private.key" = Some (File priv mpriv) ->
  d !! "./public.key" = Some (File pub mpub) ->
  roundtrip sign verify env (Buffer priv) (Buffer pub) = Some e ->
  exists line : string,
    resolve' (start d mask) =
      (Exit 1,
       Process (Some (Buffer priv)) (Some (Buffer pub)) d mask [] [(err, line)]).
Proof.
  intros Hpriv Hpub Hd1 Hd2 Hbad.
  eexists.
  rewrite (resolve_fatal _ (Process (Some (Buffer priv)) (Some (Buffer pub))
                                    d mask [] []) e).
  - reflexivity.
  - run_try_block.
    rewrite !or_env_default by done. by rewrite Hd1, Hd2, Hbad.
  - unfold provided. cbn [privateKey publicKey truthy_key].
    by rewrite !orb_true_r.
Qed.

(** ** Fatal diagnostics *)

(** C6. With a key path configured, when the private key path is not on
    the disk, or the private key is read and the public key path is not
    on the disk, [resolve] exits with status 1 after the one line
    "Could not find key at path p." for that missing path [p]; it
    generates nothing and does not touch the disk. *)
Theorem explicit_path_missing_is_fatal (d : gmap string node) (mask : Z) :
  Js.truthy_env (privateKeyPath env) || Js.truthy_env (publicKeyPath env) = true ->
  (d !! Js.or_env (privateKeyPath env) "./private.key" = None \/
   exists data mode,
     d !! Js.or_env (privateKeyPath env) "./private.key" = Some (File data mode) /\
     d !! Js.or_env (publicKeyPath env) "./public.key" = None) ->
  exists (p : string) (s' : process),
    (p = Js.or_env (privateKeyPath env) "./private.key" \/
     p = Js.or_env (publicKeyPath env) "./public.key") /\
    d !! p = None /\
    resolve' (start d mask) = (Exit 1, s') /\
    console s' = [(err, "Error: Could not find key at path " +:+ p +:+ ".")] /\
    effects s' = [] /\
    disk s' = d.
Proof.
  intros Hcfg [Hmiss|(data & mode & Hfile & Hmiss)].
  - exists (Js.or_env (privateKeyPath env) "./private.key"). eexists.
    split; [by left|]. split; [done|].
    rewrite (resolve_fatal _ (start d mask)
               (fs.ENOENT "open" (Js.or_env (privateKeyPath env) "./private.key"))).
    + split; [reflexivity|]. done.
    + run_try_block. by rewrite Hmiss.
    + unfold provided. by rewrite Hcfg.
  - exists (Js.or_env (publicKeyPath env) "./public.key"). eexists.
    split; [by right|]. split; [done|].
    rewrite (resolve_fatal _ (set_privateKey (Buffer data) (start d mask))
               (fs.ENOENT "open" (Js.or_env (publicKeyPath env) "./public.key"))).
    + split; [reflexivity|]. done.
    + run_try_block. by rewrite Hfile, Hmiss.
    + unfold provided. by rewrite Hcfg.
Qed.

Lemma msg_invalid_not_missing (p : option string) : msg_invalid <> msg_missing p.
Proof. unfold msg_invalid, msg_missing. discriminate. Qed.

(** C7. With a key path configured, when both key files are read and
    the sign-then-verify test throws a JsonWebTokenError, [resolve]
    exits with status 1 after the one line "Testing provided keypair
    failed", which differs from the missing-file line for every path;
    the disk is not touched. *)
Theorem explicit_path_invalid_is_fatal (d : gmap string node) (mask : Z)
    (priv pub : list Byte.byte) (mpriv mpub : Z) (e : error) :
  Js.truthy_env (privateKeyPath env) || Js.truthy_env (publicKeyPath env) = true ->
  d !! Js.or_env (privateKeyPath env) "./private.key" = Some (File priv mpriv) ->
  d !! Js.or_env (publicKeyPath env) "./public.key" = Some (File pub mpub) ->
  roundtrip sign verify env (Buffer priv) (Buffer pub) = Some e ->
  name e = "JsonWebTokenError" ->
  resolve' (start d mask) =
    (Exit 1,
     Process (Some (Buffer priv)) (Some (Buffer pub)) d mask []
             [(err, msg_invalid)]) /\
  forall p : option string, msg_invalid <> msg_missing p.
Proof.
  intros Hcfg Hd1 Hd2 Hbad Hname.
  split; [|apply msg_invalid_not_missing].
  rewrite (resolve_fatal _ (Process (Some (Buffer priv)) (Some (Buffer pub))
                                    d mask [] []) e).
  - rewrite Hname. reflexivity.
  - run_try_block. by rewrite Hd1, Hd2, Hbad.
  - unfold provided. cbn [privateKey publicKey truthy_key].
    by rewrite !orb_true_r.
Qed.

(** ** Regeneration *)

(** C3 (as the code has it). When the [try] block throws an error that
    is neither a missing file (ENOENT) nor a JsonWebTokenError, the
    guard of line 97 decides: with a key path configured or a key
    already read, [resolve] exits with status 1 after the "Unkown
    error" line and leaves the disk alone; with no key path configured
    and no key read, it generates a new pair, backs up what is at the
    two key paths and saves the pair: for the smallest free backup
    indices [i] and [j], the effects are the rename of [./private.key]
    (when [i > 0]), the rename of [./public.key] (when [j > 0]) and the
    write and chmod of both keys, and what was at a key path is found at
    its backup name afterwards. *)
Theorem unknown_error_outcome (d : gmap string node) (mask : Z)
    (e : error) (s1 : process) :
  try_block sign verify env (start d mask) = (Throw e, s1) ->
  ~ (name e = "Error" /\ code e = Some "ENOENT") ->
  name e <> "JsonWebTokenError" ->
  if Js.truthy_env (privateKeyPath env) || Js.truthy_env (publicKeyPath env)
     || truthy_key (privateKey s1) || truthy_key (publicKey s1)
  then
    resolve' (start d mask) =
      (Exit 1,
       Process (privateKey s1) (publicKey s1) d mask [] [(err, msg_unknown e)])
  else
    exists i j : nat,
      least_free d "./private" i /\
      least_free d "./public" j /\
      resolve' (start d mask) =
        (Normal (Some (Text (fst generate)), Some (Text (snd generate))),
         Process
           (Some (Text (fst generate))) (Some (Text (snd generate)))
           (<["./public.key" := File (list_byte_of_string (snd generate)) 420]>
              (<["./private.key" := File (list_byte_of_string (fst generate)) 384]>
                 (rotated "./public" j (rotated "./private" i d))))
           mask
           (renames "./private" i ++ renames "./public" j ++
              [Write "./private.key" (list_byte_of_string (fst generate));
               Chmod "./private.key" "600";
               Write "./public.key" (list_byte_of_string (snd generate));
               Chmod "./public.key" "644"])
           ([(log, msg_generating)] ++
              warnings "./private" i ++ warnings "./public" j)) /\
      (forall n : node,
          d !! "./private.key" = Some n ->
          (0 < i)%nat /\
          disk (snd (resolve' (start d mask))) !! file "./private" i = Some n) /\
      (forall n : node,
          d !! "./public.key" = Some n ->
          (0 < j)%nat /\
          disk (snd (resolve' (start d mask))) !! file "./public" j = Some n).
Proof.
  intros Htry Hnoent Hjwt.
  pose proof (try_block_frame (start d mask)) as Hframe.
  rewrite Htry in Hframe. simpl in Hframe.
  destruct Hframe as (Hdisk & Heff & Hmask & [Hc|[Hn _]]); [|discriminate].
  fold (provided env s1). destruct (provided env s1) eqn:Hp.
  - rewrite (resolve_fatal _ _ _ Htry Hp).
    rewrite (bool_decide_eq_false_2 (name e = "JsonWebTokenError")) by done.
    destruct (bool_decide (name e = "Error")) eqn:H1;
      destruct (bool_decide (code e = Some "ENOENT")) eqn:H2; simpl;
      try (apply bool_decide_eq_true in H1, H2; tauto);
      destruct s1; simpl in *; by subst.
  - destruct (resolve_generated _ _ _ Htry Hp) as (i & j & Hi & Hj & Hrun).
    unfold start in Hi, Hj, Hrun |- *. cbn [disk umask effects] in Hi, Hj, Hrun.
    rewrite Hc in Hrun.
    exists i, j. split; [exact Hi|]. split; [exact Hj|].
    unfold start. rewrite Hrun. split; [reflexivity|].
    cbn [snd]. project.
    destruct (saved_disk_keeps d i j
                (File (list_byte_of_string (fst generate)) 384)
                (File (list_byte_of_string (snd generate)) 420) Hi Hj)
      as (Hk1 & Hk2 & _).
    split; [exact Hk1|exact Hk2].
Qed.


(** C8. Whenever [resolve] writes a file, it ends normally with the new
    private key stored at [./private.key] with mode 600 (octal: read and
    write for the owner, nothing else) and the new public key stored at
    [./public.key] with mode 644 (read and write for the owner, read
    for group and others). *)
Theorem saved_key_modes (d : gmap string node) (mask : Z)
    (p : string) (data : list Byte.byte) :
  Write p data ∈ effects (snd (resolve' (start d mask))) ->
  exists s' : process,
    resolve' (start d mask) =
      (Normal (Some (Text (fst generate)), Some (Text (snd generate))), s') /\
    disk s' !! "./private.key"
      = Some (File (list_byte_of_string (fst generate)) 384) /\
    disk s' !! "./public.key"
      = Some (File (list_byte_of_string (snd generate)) 420) /\
    Chmod "./private.key" "600" ∈ effects s' /\
    Chmod "./public.key" "644" ∈ effects s' /\
    fs.parseFileMode "600" = Some 384 /\ permissions 384 = "rw-------" /\
    fs.parseFileMode "644" = Some 420 /\ permissions 420 = "rw-r--r--".
Proof.
  intros Hw.
  destruct (resolve_cases d mask)
    as [(s1 & _ & Hrun & _ & Heff & _)
       |[(e & s1 & line & _ & _ & Hrun & _ & Heff & _)
        |(e & s1 & s' & Htry & Hp & _)]].
  - rewrite Hrun in Hw. simpl in Hw. rewrite Heff in Hw.
    by apply not_elem_of_nil in Hw.
  - rewrite Hrun in Hw. simpl in Hw. rewrite Heff in Hw.
    by apply not_elem_of_nil in Hw.
  - destruct (resolve_generated _ _ _ Htry Hp) as (i & j & _ & _ & Hrun).
    eexists. split; [exact Hrun|]. simpl.
    split. { rewrite lookup_insert_ne by done. apply lookup_insert_eq. }
    split. { apply lookup_insert_eq. }
    split. { rewrite !elem_of_app. right. right. set_solver. }
    split. { rewrite !elem_of_app. right. right. set_solver. }
    done.
Qed.

(** C10. With no key path configured, no [./private.key] and an entry
    at [./public.key], [resolve] generates a new pair without an error
    line.  The only rename moves [./public.key] to
    [./public.backup.N.key] for the smallest [N >= 1] whose name is
    free, where the old entry is found afterwards; nothing is renamed
    on the private side; both new keys are then saved. *)
Theorem lone_public_key_backed_up (d : gmap string node) (mask : Z) (old : node) :
  Js.truthy_env (privateKeyPath env) = false ->
  Js.truthy_env (publicKeyPath env) = false ->
  d !! "./private.key" = None ->
  d !! "./public.key" = Some old ->
  exists (N : nat) (s' : process),
    (0 < N)%nat /\
    file "./public" N = "./public.backup." +:+ pretty N +:+ ".key" /\
    d !! file "./public" N = None /\
    (forall k : nat, (k < N)%nat -> is_Some (d !! file "./public" k)) /\
    resolve' (start d mask) =
      (Normal (Some (Text (fst generate)), Some (Text (snd generate))), s') /\
    effects s' =
      [Rename "./public.key" (file "./public" N);
       Write "./private.key" (list_byte_of_string (fst generate));
       Chmod "./private.key" "600";
       Write "./public.key" (list_byte_of_string (snd generate));
       Chmod "./public.key" "644"] /\
    console s' =
      [(log, msg_generating);
       (warn, msg_renaming "./public.key" (file "./public" N))] /\
    disk s' !! file "./public" N = Some old /\
    disk s' !! "./private.key"
      = Some (File (list_byte_of_string (fst generate)) 384) /\
    disk s' !! "./public.key"
      = Some (File (list_byte_of_string (snd generate)) 420).
Proof.
  intros Hpriv Hpub Hd1 Hd2.
  assert (Htry : try_block sign verify env (start d mask)
                 = (Throw (fs.ENOENT "open" "./private.key"), start d mask)).
  { run_try_block. rewrite (or_env_default _ _ Hpriv).
    by rewrite Hd1. }
  destruct (resolve_generated _ _ _ Htry) as (i & j & Hi & Hj & Hrun).
  { unfold provided. simpl. by rewrite Hpriv, Hpub. }
  simpl in Hi, Hj.
  assert (i = 0%nat) as ->.
  { apply (least_free_unique d "./private"); [done|]. by split; [|lia]. }
  destruct j as [|j].
  { destruct Hj as [Hfree _]. rewrite public_key_name in Hfree. congruence. }
  exists (S j). eexists.
  split; [lia|]. split; [by rewrite file_S|].
  split; [apply Hj|]. split; [apply Hj|].
  split; [exact Hrun|].
  cbn [privateKey publicKey disk umask effects console start renames warnings].
  rewrite rotated_0. rewrite public_key_name.
  split; [done|]. split; [done|].
  split.
  { rewrite lookup_insert_ne.
    2:{ rewrite <- public_key_name. intros H. by apply file_inj in H. }
    rewrite lookup_insert_ne by (apply (private_public 0 (S j))).
    destruct (rotated_lookup_i "./public" j d Hj) as [-> _].
    by rewrite public_key_name. }
  split.
  { rewrite lookup_insert_ne by done. apply lookup_insert_eq. }
  apply lookup_insert_eq.
Qed.

End Runs.

(** ** Token expiry *)

Lemma or_number_120 (n : Js.number) :
  Js.or_number n (Js.Num 120) =
    match n with
    | Js.NaN => Js.Num 120
    | Js.Num z => if z =? 0 then Js.Num 120 else Js.Num z
    | other => other
    end.
Proof. destruct n as [|z| |]; try reflexivity. unfold Js.or_number. simpl.
       by destruct (z =? 0). Qed.

(** C9 (as the code has it). For every value of JWT_EXPIRES_IN, absent
    or not, the expiry is +Infinity or an integer that is at least 10.
    By what [parseInt] returns: NaN (absent or unparsable) and 0 give the
    default 120; any other integer below 10 is raised to 10; an integer
    from 10 on is kept. *)
Theorem jwtExpiresIn_at_least_10 (JWT_EXPIRES_IN : option string) :
  (fst (jwtExpiresIn JWT_EXPIRES_IN) = Js.PosInfinity \/
   exists z : Z, fst (jwtExpiresIn JWT_EXPIRES_IN) = Js.Num z /\ 10 <= z) /\
  fst (jwtExpiresIn JWT_EXPIRES_IN) =
    match Js.parseInt (Js.toString_env JWT_EXPIRES_IN) with
    | Js.NaN => Js.Num 120
    | Js.Num z => if z =? 0 then Js.Num 120
                  else if z <? 10 then Js.Num 10 else Js.Num z
    | Js.PosInfinity => Js.PosInfinity
    | Js.NegInfinity => Js.Num 10
    end /\
  fst (jwtExpiresIn None) = Js.Num 120.
Proof.
  assert (Hshape : fst (jwtExpiresIn JWT_EXPIRES_IN) =
    match Js.parseInt (Js.toString_env JWT_EXPIRES_IN) with
    | Js.NaN => Js.Num 120
    | Js.Num z => if z =? 0 then Js.Num 120
                  else if z <? 10 then Js.Num 10 else Js.Num z
    | Js.PosInfinity => Js.PosInfinity
    | Js.NegInfinity => Js.Num 10
    end).
  { unfold jwtExpiresIn. rewrite or_number_120.
    destruct (Js.parseInt _) as [|z| |]; try reflexivity.
    destruct (z =? 0) eqn:H0; [reflexivity|].
    unfold Js.lt_number. by destruct (z <? 10). }
  split; [|split; [exact Hshape|reflexivity]].
  rewrite Hshape.
  destruct (Js.parseInt _) as [|z| |].
  - right. exists 120. split; [done|lia].
  - right. destruct (z =? 0) eqn:H0; [exists 120; split; [done|lia]|].
    destruct (z <? 10) eqn:H10; [exists 10; split; [done|lia]|].
    exists z. split; [done|]. apply Z.ltb_ge in H10. lia.
  - by left.
  - right. exists 10. split; [done|lia].
Qed.

Example jwtExpiresIn_absent : jwtExpiresIn None = (Js.Num 120, []).
Proof. reflexivity. Qed.

Example jwtExpiresIn_text : jwtExpiresIn (Some "soon") = (Js.Num 120, []).
Proof. reflexivity. Qed.

Example jwtExpiresIn_300 : jwtExpiresIn (Some " 300s") = (Js.Num 300, []).
Proof. reflexivity. Qed.

Example jwtExpiresIn_hex : jwtExpiresIn (Some "0x1F") = (Js.Num 31, []).
Proof. reflexivity. Qed.

Example jwtExpiresIn_5 : jwtExpiresIn (Some "5") = (Js.Num 10, [minimum_warning]).
Proof. reflexivity. Qed.

Example jwtExpiresIn_negative :
  jwtExpiresIn (Some "-42") = (Js.Num 10, [minimum_warning]).
Proof. reflexivity. Qed.

Example jwtExpiresIn_rounded :
  jwtExpiresIn (Some "9007199254740993") = (Js.Num 9007199254740992, []).
Proof. vm_compute. reflexivity. Qed.

Example jwtExpiresIn_overflow :
  jwtExpiresIn (Some (Toy.power_of_ten 309)) = (Js.PosInfinity, []).
Proof. vm_compute. reflexivity. Qed.

Example jwtExpiresIn_largest :
  fst (jwtExpiresIn (Some (Toy.power_of_ten 308))) = Js.Num
    100000000000000001097906362944045541740492309677311846336810682903157585404911491537163328978494688899061249669721172515611590283743140088328307009198146046031271664502933027185697489699588559043338384466165001178426897626212945177628091195786707458122783970171784415105291802893207873272974885715430223118336.
Proof. vm_compute. reflexivity. Qed.

(** C9, as stated, fails at "0": the value is below 10, and the expiry is
    the default 120, not 10. *)
Lemma jwtExpiresIn_zero_is_default :
  Js.parseInt "0" = Js.Num 0 /\
  Js.lt_number (Js.Num 0) (Js.Num 10) = true /\
  jwtExpiresIn (Some "0") = (Js.Num 120, []) /\
  fst (jwtExpiresIn (Some "0")) <> Js.Num 10.
Proof. repeat split; try reflexivity. discriminate. Qed.

(** ** The key setup on example disks *)

Lemma valid_default_pair_loaded_witness :
  exists s' : process,
    toy_resolve Toy.no_paths (start Toy.matching_pair 18)
    = (Normal (Some (Buffer (Toy.bytes "k")), Some (Buffer (Toy.bytes "k"))), s') /\
    disk s' = Toy.matching_pair /\
    effects s' = [] /\
    console s' = [(log, msg_loaded)].
Proof.
  apply (valid_default_pair_loaded Toy.sign Toy.verify Toy.generate Toy.no_paths
           Toy.matching_pair 18 (Toy.bytes "k") (Toy.bytes "k") 384 420);
    vm_compute; reflexivity.
Defined.

Lemma invalid_default_pair_is_fatal_witness :
  exists line : string,
    toy_resolve Toy.no_paths (start Toy.mismatched_pair 18)
    = (Exit 1,
       Process (Some (Buffer (Toy.bytes "a"))) (Some (Buffer (Toy.bytes "b")))
               Toy.mismatched_pair 18 [] [(err, line)]).
Proof.
  apply (invalid_default_pair_is_fatal Toy.sign Toy.verify Toy.generate
           Toy.no_paths Toy.mismatched_pair 18 (Toy.bytes "a") (Toy.bytes "b")
           384 420 (Error "JsonWebTokenError" None None "invalid signature"));
    vm_compute; reflexivity.
Defined.

(** C1, as stated, fails on a mismatched pair at the default paths: the
    setup exits with status 1, and neither file is renamed or replaced. *)
Lemma invalid_default_pair_not_backed_up :
  let r := toy_resolve Toy.no_paths (start Toy.mismatched_pair 18) in
  roundtrip Toy.sign Toy.verify Toy.no_paths
            (Buffer (Toy.bytes "a")) (Buffer (Toy.bytes "b"))
  = Some (Error "JsonWebTokenError" None None "invalid signature") /\
  fst r = Exit 1 /\
  console (snd r) = [(err, msg_invalid)] /\
  effects (snd r) = [] /\
  disk (snd r) = Toy.mismatched_pair /\
  ~ (Rename "./private.key" "./private.backup.1.key" ∈ effects (snd r)) /\
  ~ (Rename "./public.key" "./public.backup.1.key" ∈ effects (snd r)).
Proof.
  assert (Heff : effects (snd (toy_resolve Toy.no_paths
                                 (start Toy.mismatched_pair 18))) = []).
  { vm_compute. reflexivity. }
  cbv zeta. rewrite Heff.
  repeat split; try (vm_compute; reflexivity); apply not_elem_of_nil.
Qed.

Lemma unknown_error_outcome_witness :
  toy_resolve Toy.private_path_set (start Toy.configured_directory 18)
  = (Exit 1,
     Process None None Toy.configured_directory 18 []
             [(err, msg_unknown (fs.EISDIR "read" None))]).
Proof.
  apply (unknown_error_outcome Toy.sign Toy.verify Toy.generate
           Toy.private_path_set Toy.configured_directory 18
           (fs.EISDIR "read" None) (start Toy.configured_directory 18)).
  - vm_compute. reflexivity.
  - intros [_ H]. discriminate H.
  - discriminate.
Defined.

(** C3, as stated, fails when [./private.key] is a directory and no path
    is configured: reading it throws EISDIR, which is neither ENOENT nor a
    JsonWebTokenError, and the setup does not exit: it moves the
    directory aside and saves a new pair. *)
Lemma unknown_error_not_fatal :
  let r := toy_resolve Toy.no_paths (start Toy.private_key_is_directory 18) in
  try_block Toy.sign Toy.verify Toy.no_paths (start Toy.private_key_is_directory 18)
  = (Throw (Error "Error" (Some "EISDIR") None
                  "EISDIR: illegal operation on a directory, read"),
     start Toy.private_key_is_directory 18) /\
  fst r = Normal (Some (Text "fresh"), Some (Text "fresh")) /\
  (forall status : Z, fst r <> Exit status) /\
  effects (snd r) =
    [Rename "./private.key" "./private.backup.1.key";
     Write "./private.key" (Toy.bytes "fresh");
     Chmod "./private.key" "600";
     Write "./public.key" (Toy.bytes "fresh");
     Chmod "./public.key" "644"].
Proof.
  assert (Hr : fst (toy_resolve Toy.no_paths (start Toy.private_key_is_directory 18))
               = Normal (Some (Text "fresh"), Some (Text "fresh"))).
  { vm_compute. reflexivity. }
  cbv zeta. rewrite Hr.
  repeat split; try (vm_compute; reflexivity). discriminate.
Qed.


Lemma explicit_path_missing_is_fatal_witness :
  exists (p : string) (s' : process),
    (p = "/etc/keys/private.pem" \/ p = "./public.key") /\
    (∅ : gmap string node) !! p = None /\
    toy_resolve Toy.private_path_set (start ∅ 18) = (Exit 1, s') /\
    console s' = [(err, "Error: Could not find key at path " +:+ p +:+ ".")] /\
    effects s' = [] /\
    disk s' = ∅.
Proof.
  apply (explicit_path_missing_is_fatal Toy.sign Toy.verify Toy.generate
           Toy.private_path_set ∅ 18).
  - reflexivity.
  - left. reflexivity.
Defined.

Lemma explicit_path_invalid_is_fatal_witness :
  toy_resolve Toy.private_path_set (start Toy.configured_mismatch 18)
  = (Exit 1,
     Process (Some (Buffer (Toy.bytes "a"))) (Some (Buffer (Toy.bytes "b")))
             Toy.configured_mismatch 18 [] [(err, msg_invalid)]) /\
  forall p : option string, msg_invalid <> msg_missing p.
Proof.
  apply (explicit_path_invalid_is_fatal Toy.sign Toy.verify Toy.generate
           Toy.private_path_set Toy.configured_mismatch 18
           (Toy.bytes "a") (Toy.bytes "b") 384 420
           (Error "JsonWebTokenError" None None "invalid signature"));
    vm_compute; reflexivity.
Defined.

Lemma saved_key_modes_witness :
  exists s' : process,
    toy_resolve Toy.no_paths (start ∅ 18)
    = (Normal (Some (Text "fresh"), Some (Text "fresh")), s') /\
    disk s' !! "./private.key" = Some (File (Toy.bytes "fresh") 384) /\
    disk s' !! "./public.key" = Some (File (Toy.bytes "fresh") 420) /\
    Chmod "./private.key" "600" ∈ effects s' /\
    Chmod "./public.key" "644" ∈ effects s' /\
    fs.parseFileMode "600" = Some 384 /\ permissions 384 = "rw-------" /\
    fs.parseFileMode "644" = Some 420 /\ permissions 420 = "rw-r--r--".
Proof.
  apply (saved_key_modes Toy.sign Toy.verify Toy.generate Toy.no_paths ∅ 18
           "./private.key" (Toy.bytes "fresh")).
  assert (Heff : effects (snd (toy_resolve Toy.no_paths (start ∅ 18)))
                 = [Write "./private.key" (Toy.bytes "fresh");
                    Chmod "./private.key" "600";
                    Write "./public.key" (Toy.bytes "fresh");
                    Chmod "./public.key" "644"]).
  { vm_compute. reflexivity. }
  rewrite Heff. apply list_elem_of_here.
Defined.

Lemma lone_public_key_backed_up_witness :
  exists (N : nat) (s' : process),
    (0 < N)%nat /\
    file "./public" N = "./public.backup." +:+ pretty N +:+ ".key" /\
    Toy.lone_public_key !! file "./public" N = None /\
    (forall k : nat, (k < N)%nat -> is_Some (Toy.lone_public_key !! file "./public" k)) /\
    toy_resolve Toy.no_paths (start Toy.lone_public_key 18)
    = (Normal (Some (Text "fresh"), Some (Text "fresh")), s') /\
    effects s' =
      [Rename "./public.key" (file "./public" N);
       Write "./private.key" (Toy.bytes "fresh");
       Chmod "./private.key" "600";
       Write "./public.key" (Toy.bytes "fresh");
       Chmod "./public.key" "644"] /\
    console s' =
      [(log, msg_generating);
       (warn, msg_renaming "./public.key" (file "./public" N))] /\
    disk s' !! file "./public" N = Some (File (Toy.bytes "b") 420) /\
    disk s' !! "./private.key" = Some (File (Toy.bytes "fresh") 384) /\
    disk s' !! "./public.key" = Some (File (Toy.bytes "fresh") 420).
Proof.
  apply (lone_public_key_backed_up Toy.sign Toy.verify Toy.generate Toy.no_paths
           Toy.lone_public_key 18 (File (Toy.bytes "b") 420));
    vm_compute; reflexivity.
Defined.

(** On that disk the backup index is 2: [./public.backup.1.key] is taken
    and stays as it was. *)
Example lone_public_key_run :
  let r := toy_resolve Toy.no_paths (start Toy.lone_public_key 18) in
  effects (snd r) =
    [Rename "./public.key" "./public.backup.2.key";
     Write "./private.key" (Toy.bytes "fresh");
     Chmod "./private.key" "600";
     Write "./public.key" (Toy.bytes "fresh");
     Chmod "./public.key" "644"] /\
  disk (snd r) =
    {[ "./private.key" := File (Toy.bytes "fresh") 384;
       "./public.key" := File (Toy.bytes "fresh") 420;
       "./public.backup.1.key" := File (Toy.bytes "c") 420;
       "./public.backup.2.key" := File (Toy.bytes "b") 420 ]}.
Proof. split; vm_compute; reflexivity. Qed.

(** * Further properties of the key setup *)

Section Restart.

Variable sign : key -> jwtOptions -> error + string.
Variable verify : string -> key -> option error.
Variable generate : string * string.
Variable env : environment.

Local Abbreviation resolve' := (resolve sign verify generate env).

(** What a run that printed the "Generating" line looked like. *)
Lemma generation_inv (d : gmap string node) (mask : Z) :
  (log, msg_generating) ∈ console (snd (resolve' (start d mask))) ->
  Js.truthy_env (privateKeyPath env) = false /\
  Js.truthy_env (publicKeyPath env) = false /\
  exists i j : nat,
    least_free d "./private" i /\
    least_free d "./public" j /\
    resolve' (start d mask) =
      (Normal (Some (Text (fst generate)), Some (Text (snd generate))),
       Process
         (Some (Text (fst generate))) (Some (Text (snd generate)))
         (<["./public.key" := File (list_byte_of_string (snd generate)) 420]>
            (<["./private.key" := File (list_byte_of_string (fst generate)) 384]>
               (rotated "./public" j (rotated "./private" i d))))
         mask
         (renames "./private" i ++ renames "./public" j ++
            [Write "./private.key" (list_byte_of_string (fst generate));
             Chmod "./private.key" "600";
             Write "./public.key" (list_byte_of_string (snd generate));
             Chmod "./public.key" "644"])
         ([(log, msg_generating)] ++
            warnings "./private" i ++ warnings "./public" j)).
Proof.
  intros Hgen.
  destruct (resolve_cases sign verify generate env d mask)
    as [(s1 & _ & Hrun & _ & _ & Hc)
       |[(e & s1 & line & _ & _ & Hrun & _ & _ & Hc)
        |(e & s1 & s' & Htry & Hp & _)]].
  - rewrite Hrun in Hgen. simpl in Hgen. rewrite Hc in Hgen.
    apply list_elem_of_singleton in Hgen. discriminate.
  - rewrite Hrun in Hgen. simpl in Hgen. rewrite Hc in Hgen.
    apply list_elem_of_singleton in Hgen. discriminate.
  - pose proof Hp as Hp'. unfold provided in Hp'.
    apply orb_false_elim in Hp' as [Hp' _].
    apply orb_false_elim in Hp' as [Hp' _].
    apply orb_false_elim in Hp' as [Hpriv Hpub].
    split; [done|]. split; [done|].
    destruct (resolve_generated sign verify generate env _ _ _ Htry Hp)
      as (i & j & Hi & Hj & Hrun).
    pose proof (try_block_frame sign verify env (start d mask)) as Hframe.
    rewrite Htry in Hframe. cbn [fst snd] in Hframe.
    destruct Hframe as (_ & _ & _ & [Hc|[Hn _]]); [|discriminate].
    exists i, j. split; [exact Hi|]. split; [exact Hj|].
    rewrite Hrun, Hc. reflexivity.
Qed.

(** X2. When the key setup exits, the status is 1, the disk is as it
    was, no write, rename or chmod was made, and exactly one line was
    printed, on the error stream. *)
Theorem exit_leaves_disk (d : gmap string node) (mask : Z) (status : Z) :
  fst (resolve' (start d mask)) = Exit status ->
  status = 1 /\
  disk (snd (resolve' (start d mask))) = d /\
  effects (snd (resolve' (start d mask))) = [] /\
  exists line : string, console (snd (resolve' (start d mask))) = [(err, line)].
Proof.
  intros Hexit.
  destruct (resolve_cases sign verify generate env d mask)
    as [(s1 & _ & Hrun & _)
       |[(e & s1 & line & _ & _ & Hrun & Hd & Heff & Hc)
        |(e & s1 & s' & _ & _ & Hrun & _)]];
    rewrite Hrun in Hexit |- *; cbn [fst snd] in *; try discriminate.
  injection Hexit as <-. unfold print. project.
  rewrite Hc. split; [done|]. split; [done|]. split; [done|]. by exists line.
Qed.

(** X3. A run that generates a new pair destroys nothing that was at
    the two key paths: what was at [./private.key] and at [./public.key]
    is found afterwards, with the same content, at the backup name the
    setup chose, a name that was free; what was below them is found
    below those names; and every path that is none of these four names
    and below none of them holds what it held. *)
Theorem regeneration_keeps_entries (d : gmap string node) (mask : Z) :
  (log, msg_generating) ∈ console (snd (resolve' (start d mask))) ->
  exists i j : nat,
    least_free d "./private" i /\
    least_free d "./public" j /\
    (forall n : node,
        d !! "./private.key" = Some n ->
        (0 < i)%nat /\
        disk (snd (resolve' (start d mask))) !! file "./private" i = Some n) /\
    (forall n : node,
        d !! "./public.key" = Some n ->
        (0 < j)%nat /\
        disk (snd (resolve' (start d mask))) !! file "./public" j = Some n) /\
    (forall r : string,
        (0 < i)%nat ->
        disk (snd (resolve' (start d mask))) !! (file "./private" i +:+ "/" +:+ r)
        = d !! ("./private.key" +:+ "/" +:+ r)) /\
    (forall r : string,
        (0 < j)%nat ->
        disk (snd (resolve' (start d mask))) !! (file "./public" j +:+ "/" +:+ r)
        = d !! ("./public.key" +:+ "/" +:+ r)) /\
    (forall p : string,
        p <> "./private.key" -> p <> "./public.key" ->
        p <> file "./private" i -> p <> file "./public" j ->
        fs.below "./private.key" p = false -> fs.below "./public.key" p = false ->
        fs.below (file "./private" i) p = false ->
        fs.below (file "./public" j) p = false ->
        disk (snd (resolve' (start d mask))) !! p = d !! p).
Proof.
  intros Hgen.
  destruct (generation_inv d mask Hgen) as (_ & _ & i & j & Hi & Hj & Hrun).
  exists i, j. split; [exact Hi|]. split; [exact Hj|].
  rewrite Hrun. cbn [snd]. project.
  exact (saved_disk_keeps d i j _ _ Hi Hj).
Qed.

(** Lines 90-95 on a disk that holds a pair at the default paths. *)
Lemma restart_try_block (d : gmap string node) (mask : Z)
    (priv pub : list Byte.byte) (mpriv mpub : Z) :
  Js.truthy_env (privateKeyPath env) = false ->
  Js.truthy_env (publicKeyPath env) = false ->
  d !! "./private.key" = Some (File priv mpriv) ->
  d !! "./public.key" = Some (File pub mpub) ->
  try_block sign verify env (start d mask) =
    match roundtrip sign verify env (Buffer priv) (Buffer pub) with
    | Some e =>
        (Throw e, Process (Some (Buffer priv)) (Some (Buffer pub)) d mask [] [])
    | None =>
        (Normal tt,
         Process (Some (Buffer priv)) (Some (Buffer pub)) d mask []
                 [(log, msg_loaded)])
    end.
Proof.
  intros Hpriv Hpub Hd1 Hd2. rewrite try_block_run. cbv zeta.
  unfold start. project. rewrite !or_env_default by done.
  rewrite Hd1, Hd2. by destruct (roundtrip _ _ _ _ _).
Qed.

(** X4. Starting again after a run that generated a pair: if the saved
    pair passes the sign-then-verify test, the second run loads exactly
    the bytes that were saved and changes nothing on the disk. *)
Theorem restart_loads_generated_pair (d : gmap string node) (mask mask' : Z) :
  (log, msg_generating) ∈ console (snd (resolve' (start d mask))) ->
  roundtrip sign verify env
            (Buffer (list_byte_of_string (fst generate)))
            (Buffer (list_byte_of_string (snd generate))) = None ->
  exists s'' : process,
    resolve' (start (disk (snd (resolve' (start d mask)))) mask') =
      (Normal (Some (Buffer (list_byte_of_string (fst generate))),
               Some (Buffer (list_byte_of_string (snd generate)))), s'') /\
    disk s'' = disk (snd (resolve' (start d mask))) /\
    effects s'' = [] /\
    console s'' = [(log, msg_loaded)].
Proof.
  intros Hgen Hok.
  destruct (generation_inv d mask Hgen) as (Hpriv & Hpub & i & j & _ & _ & Hrun).
  rewrite Hrun. cbn [snd]. project.
  set (d' := <["./public.key" := _]> _).
  eexists (Process _ _ d' mask' [] [(log, msg_loaded)]).
  split; [|done].
  rewrite (resolve_loaded sign verify generate env _
             (Process (Some (Buffer (list_byte_of_string (fst generate))))
                      (Some (Buffer (list_byte_of_string (snd generate))))
                      d' mask' [] [(log, msg_loaded)])); [done|].
  rewrite (restart_try_block d' mask' (list_byte_of_string (fst generate))
               (list_byte_of_string (snd generate)) 384 420 Hpriv Hpub).
  - by rewrite Hok.
  - unfold d'. rewrite lookup_insert_ne by done. apply lookup_insert_eq.
  - unfold d'. apply lookup_insert_eq.
Qed.

(** X5. The generated pair is saved without being tested: a run that
    generates ends normally whatever the pair is, and if the saved pair
    fails the sign-then-verify test, the next start exits with status 1
    and leaves the disk as the first run left it. *)
Theorem restart_rejects_generated_pair (d : gmap string node) (mask mask' : Z)
    (e : error) :
  (log, msg_generating) ∈ console (snd (resolve' (start d mask))) ->
  roundtrip sign verify env
            (Buffer (list_byte_of_string (fst generate)))
            (Buffer (list_byte_of_string (snd generate))) = Some e ->
  fst (resolve' (start d mask))
  = Normal (Some (Text (fst generate)), Some (Text (snd generate))) /\
  exists s'' : process,
    resolve' (start (disk (snd (resolve' (start d mask)))) mask') = (Exit 1, s'') /\
    disk s'' = disk (snd (resolve' (start d mask))) /\
    effects s'' = [].
Proof.
  intros Hgen Hbad.
  destruct (generation_inv d mask Hgen) as (Hpriv & Hpub & i & j & _ & _ & Hrun).
  rewrite Hrun. cbn [fst snd]. project. split; [done|].
  set (d' := <["./public.key" := _]> _).
  eexists. split.
  - apply (resolve_fatal sign verify generate env _
             (Process (Some (Buffer (list_byte_of_string (fst generate))))
                      (Some (Buffer (list_byte_of_string (snd generate))))
                      d' mask' [] []) e).
    + rewrite (restart_try_block d' mask' (list_byte_of_string (fst generate))
               (list_byte_of_string (snd generate)) 384 420 Hpriv Hpub).
      * by rewrite Hbad.
      * unfold d'. rewrite lookup_insert_ne by done. apply lookup_insert_eq.
      * unfold d'. apply lookup_insert_eq.
    + unfold provided. cbn [privateKey publicKey truthy_key].
      by rewrite !orb_true_r.
  - done.
Qed.

(** X18. First start: with no key path configured and nothing at
    [./private.key] and [./public.key], the setup generates a pair,
    renames nothing, and its only effects are the two writes, each
    followed by its chmod; every other entry of the disk is as it was. *)
Theorem first_start_generates (d : gmap string node) (mask : Z) :
  Js.truthy_env (privateKeyPath env) = false ->
  Js.truthy_env (publicKeyPath env) = false ->
  d !! "./private.key" = None ->
  d !! "./public.key" = None ->
  resolve' (start d mask) =
    (Normal (Some (Text (fst generate)), Some (Text (snd generate))),
     Process
       (Some (Text (fst generate))) (Some (Text (snd generate)))
       (<["./public.key" := File (list_byte_of_string (snd generate)) 420]>
          (<["./private.key" := File (list_byte_of_string (fst generate)) 384]> d))
       mask
       [Write "./private.key" (list_byte_of_string (fst generate));
        Chmod "./private.key" "600";
        Write "./public.key" (list_byte_of_string (snd generate));
        Chmod "./public.key" "644"]
       [(log, msg_generating)]).
Proof.
  intros Hpriv Hpub Hd1 Hd2.
  assert (Htry : try_block sign verify env (start d mask)
                 = (Throw (fs.ENOENT "open" "./private.key"), start d mask)).
  { rewrite try_block_run. cbv zeta. unfold start. project.
    rewrite (or_env_default _ _ Hpriv). by rewrite Hd1. }
  destruct (resolve_generated sign verify generate env _ _ _ Htry)
    as (i & j & Hi & Hj & Hrun).
  { unfold provided, start. project. by rewrite Hpriv, Hpub. }
  unfold start in Hi, Hj. cbn [disk] in Hi, Hj.
  assert (i = 0%nat) as ->.
  { apply (least_free_unique d "./private"); [done|]. by split; [|lia]. }
  assert (j = 0%nat) as ->.
  { apply (least_free_unique d "./public"); [done|]. by split; [|lia]. }
  rewrite Hrun. unfold start. project. by rewrite !rotated_0.
Qed.

End Restart.

(** X6. Backup indices grow: when a rotation moved the file to index
    [i] and a new file has been written at the unsuffixed name, the next
    rotation for that name stops at an index above [i], so it cannot
    reuse the backup name just taken. *)
Theorem backup_index_grows (filename : string) (k : key)
    (s s1 s2 : process) (i i' : nat) :
  (0 < i)%nat ->
  while_exists filename (S (size (disk s))) 0 s = (Normal i, s) ->
  backup filename s = (Normal tt, s1) ->
  fs.writeFileSync (file filename 0) (Some k) s1 = (Normal tt, s2) ->
  while_exists filename (S (size (disk s2))) 0 s2 = (Normal i', s2) ->
  (i < i')%nat /\
  disk s2 !! file filename i = disk s !! file filename 0.
Proof.
  intros Hpos Hloop Hbackup Hwrite Hloop'.
  destruct (while_exists_least filename s) as (i0 & Hrun & Hleast).
  rewrite Hrun in Hloop. injection Hloop as ->.
  destruct (backup_run filename s) as (i1 & Hleast1 & Hrun1).
  assert (i1 = i) as -> by eauto using least_free_unique.
  rewrite Hrun1 in Hbackup. injection Hbackup as <-.
  rewrite fs_writeFileSync_new in Hwrite
    by (project; by apply rotated_lookup_0).
  injection Hwrite as <-.
  destruct (while_exists_least filename
              (set_disk
                 (<[file filename 0 := File (key_bytes k)
                      (Z.land 438 (Z.lnot (umask s)))]>
                    (rotated filename i (disk s)))
                 (Write (file filename 0) (key_bytes k))
                 (Process (privateKey s) (publicKey s)
                          (rotated filename i (disk s)) (umask s)
                          (effects s ++ renames filename i)
                          (console s ++ warnings filename i))))
    as (i2 & Hrun2 & Hleast2).
  project. rewrite Hrun2 in Hloop'. injection Hloop' as ->.
  unfold set_disk in Hleast2 |- *. project. cbn [disk] in Hleast2.
  destruct i as [|i]; [lia|].
  assert (Hi : <[file filename 0 := File (key_bytes k)
                   (Z.land 438 (Z.lnot (umask s)))]>
                 (rotated filename (S i) (disk s)) !! file filename (S i)
               = disk s !! file filename 0).
  { rewrite lookup_insert_ne by (intros H; by apply file_inj in H).
    by destruct (rotated_lookup_i filename i (disk s) Hleast) as [-> _]. }
  split; [|exact Hi].
  destruct (Nat.lt_ge_cases (S i) i') as [Hlt|Hge]; [done|exfalso].
  destruct Hleast2 as [Hfree2 _].
  destruct (decide (i' = 0%nat)) as [->|H0].
  { by rewrite lookup_insert_eq in Hfree2. }
  destruct (decide (i' = S i)) as [->|Hne].
  { rewrite Hi in Hfree2. destruct Hleast as [_ Hbelow].
    destruct (Hbelow 0%nat) as [x Hx]; [lia|]. congruence. }
  rewrite lookup_insert_ne in Hfree2 by (intros H; by apply file_inj in H).
  rewrite rotated_lookup_family in Hfree2 by done.
  destruct Hleast as [_ Hbelow].
  destruct (Hbelow i') as [x Hx]; [lia|]. congruence.
Qed.

(** * Further properties of the token expiry *)

Lemma radixDigit_pretty_char (d : N) :
  (d < 10)%N -> Js.radixDigit 10 (pretty_N_char d) = Some (Z.of_N d).
Proof.
  intros Hd.
  assert (d = 0 \/ d = 1 \/ d = 2 \/ d = 3 \/ d = 4 \/ d = 5 \/ d = 6
          \/ d = 7 \/ d = 8 \/ d = 9)%N as H by lia.
  repeat (destruct H as [->|H]; [reflexivity|]). by subst.
Qed.

(** Reading the numeral that [pretty] wrote before [s]. *)
Lemma digits_pretty_go (x : N) :
  forall (s : string) (acc : option Z),
    (0 < x)%N ->
    exists k : Z,
      Js.digits 10 (pretty_N_go x s) acc
      = Js.digits 10 s (Some (default 0 acc * 10 ^ k + Z.of_N x)) /\ 0 <= k.
Proof.
  induction (N.lt_wf_0 x) as [x _ IH]. intros s acc Hx.
  rewrite pretty_N_go_step by done.
  assert (Hmod : (x `mod` 10 < 10)%N) by (apply N.mod_lt; lia).
  assert (Hsplit : Z.of_N x = Z.of_N (x `div` 10) * 10 + Z.of_N (x `mod` 10)).
  { rewrite (N.div_mod x 10) at 1 by lia. lia. }
  destruct (decide (x `div` 10 = 0)%N) as [Hz|Hnz].
  - rewrite Hz, pretty_N_go_0. exists 1. split; [|lia].
    cbn [Js.digits]. rewrite radixDigit_pretty_char by done.
    do 2 f_equal. rewrite Hsplit, Hz. lia.
  - destruct (IH (x `div` 10)%N) with
      (s := String (pretty_N_char (x `mod` 10)) s) (acc := acc)
      as (k & Hk & Hk0).
    { apply N.div_lt; lia. }
    { lia. }
    exists (k + 1). split; [|lia]. rewrite Hk.
    cbn [Js.digits]. rewrite radixDigit_pretty_char by done.
    do 2 f_equal. cbn [default from_option id].
    rewrite Hsplit, Z.pow_add_r by lia. lia.
Qed.

(** A numeral written by [pretty] starts with a digit from 1 to 9. *)
Lemma pretty_go_head (x : N) :
  forall s : string,
    (0 < x)%N ->
    exists (c : ascii) (t : string),
      pretty_N_go x s = String c t /\
      c ∈ ["1"; "2"; "3"; "4"; "5"; "6"; "7"; "8"; "9"]%char.
Proof.
  induction (N.lt_wf_0 x) as [x _ IH]. intros s Hx.
  rewrite pretty_N_go_step by done.
  destruct (decide (x `div` 10 = 0)%N) as [Hz|Hnz].
  - rewrite Hz, pretty_N_go_0. eexists _, _. split; [done|].
    assert (x < 10)%N by (apply N.div_small_iff in Hz; lia).
    rewrite N.mod_small by done.
    assert (x = 1 \/ x = 2 \/ x = 3 \/ x = 4 \/ x = 5 \/ x = 6
            \/ x = 7 \/ x = 8 \/ x = 9)%N as H' by lia.
    repeat (destruct H' as [->|H'];
            [repeat first [apply list_elem_of_here|apply list_elem_of_further]|]).
    subst. repeat first [apply list_elem_of_here|apply list_elem_of_further].
  - apply IH.
    + apply N.div_lt; lia.
    + by apply N.neq_0_lt_0.
Qed.

Lemma parseInt_digit_head (c : ascii) (t : string) :
  c ∈ ["1"; "2"; "3"; "4"; "5"; "6"; "7"; "8"; "9"]%char ->
  Js.parseInt (String c t) =
    match Js.digits 10 (String c t) None with
    | None => Js.NaN
    | Some mathInt => Js.toNumber (1 * mathInt)
    end.
Proof.
  intros Hc. repeat (apply elem_of_cons in Hc as [->|Hc]; [reflexivity|]).
  by apply not_elem_of_nil in Hc.
Qed.

Lemma parseInt_pretty (n : N) : Js.parseInt (pretty n) = Js.toNumber (Z.of_N n).
Proof.
  unfold pretty, pretty_N. case_decide as Hn; [by subst|].
  destruct (pretty_go_head n "") as (c & t & Heq & Hc); [lia|].
  destruct (digits_pretty_go n "" None) as (k & Hk & _); [lia|].
  rewrite Heq in Hk |- *. rewrite parseInt_digit_head, Hk by done.
  cbn [Js.digits default from_option id]. f_equal. lia.
Qed.

(** X7. A JWT_EXPIRES_IN written as the decimal numeral of an integer
    from 10 up to 2^53 configures exactly that number of seconds, without
    a warning: printing the number and reading it back is the identity. *)
Theorem jwtExpiresIn_decimal (n : N) :
  (10 <= n < 2 ^ 53)%N ->
  Js.parseInt (pretty n) = Js.Num (Z.of_N n) /\
  jwtExpiresIn (Some (pretty n)) = (Js.Num (Z.of_N n), []).
Proof.
  intros [Hlo Hhi].
  assert (Hparse : Js.parseInt (pretty n) = Js.Num (Z.of_N n)).
  { rewrite parseInt_pretty. unfold Js.toNumber.
    assert ((Z.abs (Z.of_N n) <? 2 ^ 53) = true) as ->; [|done].
    apply Z.ltb_lt. change (2 ^ 53) with (Z.of_N (2 ^ 53)). lia. }
  split; [exact Hparse|].
  unfold jwtExpiresIn. cbn [Js.toString_env]. rewrite Hparse.
  unfold Js.or_number, Js.truthy_number, Js.lt_number.
  assert ((Z.of_N n =? 0) = false) as -> by (apply Z.eqb_neq; lia).
  cbn [negb].
  assert ((Z.of_N n <? 10) = false) as -> by (apply Z.ltb_ge; lia).
  done.
Qed.

Lemma jwtExpiresIn_decimal_witness :
  Js.parseInt (pretty 3600%N) = Js.Num 3600 /\
  jwtExpiresIn (Some (pretty 3600%N)) = (Js.Num 3600, []).
Proof. apply (jwtExpiresIn_decimal 3600). vm_compute. split; [discriminate|reflexivity].
Defined.

(** * Properties of the settings *)

Module SettingsFacts.
Import Settings.

Lemma split_not_nil (sep : ascii) (s : string) : split sep s <> [].
Proof.
  destruct s as [|c s]; [done|]. cbn [split].
  case_bool_decide; [done|]. by destruct (split sep s).
Qed.

Lemma split_free (sep : ascii) (x : string) :
  has_char sep x = false -> split sep x = [x].
Proof.
  induction x as [|c x IH]; [done|]. cbn [has_char split].
  intros [Hc Hx]%orb_false_elim. rewrite Hc. by rewrite IH.
Qed.

Lemma split_app (sep : ascii) (x t : string) :
  has_char sep x = false ->
  split sep (x +:+ String sep t) = x :: split sep t.
Proof.
  induction x as [|c x IH].
  - intros _. change ("" +:+ String sep t) with (String sep t).
    cbn [split]. by rewrite bool_decide_eq_true_2.
  - cbn [has_char]. intros [Hc Hx]%orb_false_elim.
    rewrite app_cons_string. cbn [split]. rewrite Hc. by rewrite IH.
Qed.

Lemma split_join (sep : ascii) (l : list string) :
  l <> [] ->
  Forall (fun o => has_char sep o = false) l ->
  split sep (join (String sep "") l) = l.
Proof.
  induction l as [|x l IH]; [done|]. intros _ Hall.
  apply Forall_cons in Hall as [Hx Hl].
  destruct l as [|y l].
  - by apply split_free.
  - change (join (String sep "") (x :: y :: l))
      with (x +:+ String sep (join (String sep "") (y :: l))).
    rewrite split_app by done. by rewrite IH.
Qed.

Lemma split_elements_free (sep : ascii) (s : string) :
  Forall (fun o => has_char sep o = false) (split sep s).
Proof.
  induction s as [|c s IH]; [by repeat constructor|]. cbn [split].
  case_bool_decide as Hc; [by constructor|].
  destruct (split sep s) as [|first others].
  - repeat constructor. cbn [has_char]. by rewrite bool_decide_eq_false_2.
  - apply Forall_cons in IH as [Hfirst Hothers]. constructor; [|done].
    cbn [has_char]. by rewrite bool_decide_eq_false_2.
Qed.

(** X8. Every origin taken from ALLOWED_ORIGINS is a non-empty string
    without a comma: empty segments (doubled, leading or trailing commas,
    an unset variable) are dropped. *)
Theorem allowedOrigins_env_clean (e : variables) (origin : string) :
  origin ∈ allowedOrigins_env e ->
  origin <> "" /\ has_char "," origin = false.
Proof.
  unfold allowedOrigins_env. intros [Hne Hin]%list_elem_of_filter.
  split; [done|].
  pose proof (split_elements_free "," (Js.or_env (ALLOWED_ORIGINS e) "")) as Hall.
  rewrite Forall_forall in Hall. by apply Hall.
Qed.

Lemma allowedOrigins_env_clean_witness :
  "https://b.example" <> "" /\ has_char "," "https://b.example" = false.
Proof.
  apply (allowedOrigins_env_clean Toy2.two_origins).
  vm_compute. apply list_elem_of_further, list_elem_of_here.
Defined.

(** X9. Writing a list of non-empty, comma-free origins into
    ALLOWED_ORIGINS with commas between them gives back exactly that
    list, in order. *)
Theorem allowedOrigins_env_join (e : variables) (l : list string) :
  Forall (fun o => o <> "" /\ has_char "," o = false) l ->
  ALLOWED_ORIGINS e = Some (join "," l) ->
  allowedOrigins_env e = l.
Proof.
  intros Hall Henv. unfold allowedOrigins_env. rewrite Henv.
  destruct l as [|x l]; [reflexivity|].
  assert (Hjoin : Js.or_env (Some (join "," (x :: l))) "" = join "," (x :: l)).
  { cbn [Js.or_env]. by destruct (join "," (x :: l)). }
  rewrite Hjoin, split_join; [|done|].
  - generalize (x :: l) Hall. clear. intros l Hall.
    induction Hall as [|y l' [Hy _] _ IH]; [done|].
    rewrite filter_cons_True by exact Hy. by rewrite IH.
  - eapply Forall_impl; [exact Hall|]. by intros o [_ ?].
Qed.

Lemma allowedOrigins_env_join_witness :
  allowedOrigins_env Toy2.two_origins = ["https://a.example"; "https://b.example"].
Proof.
  apply (allowedOrigins_env_join Toy2.two_origins
           ["https://a.example"; "https://b.example"]).
  - repeat constructor; (discriminate || reflexivity).
  - reflexivity.
Defined.

Section Url.

Variable url_parse : string -> Url.
Variable e : variables.

(** X10. The check of the base URL: when the parsed URL has a protocol
    other than [http:] or [https:], no slashes or no host name, one line
    is printed on the error stream and the process exits with status 1.
    Otherwise the list of allowed origins is the list from the
    environment followed by the origin of the base URL, which is
    [http://host] or [https://host] for a non-empty host, with [https]
    exactly when [ssl] is set; the list is printed on one line. *)
Theorem allowedOrigins_checked (s : process) :
  if incomplete url_parse e
  then allowedOrigins url_parse e s = (Exit 1, print err msg_base_url s)
  else
    exists host : string,
      host <> "" /\
      hostname (purl url_parse e) = Some host /\
      let origins :=
        allowedOrigins_env e
          ++ [(if ssl url_parse e then "https://" else "http://") +:+ host] in
      allowedOrigins url_parse e s
      = (Normal origins,
         print log ("Allowed origins: " +:+ join ", " origins) s) /\
      last origins
      = Some ((if ssl url_parse e then "https://" else "http://") +:+ host).
Proof.
  unfold allowedOrigins. destruct (incomplete url_parse e) eqn:Hinc; [done|].
  unfold incomplete in Hinc.
  apply orb_false_elim in Hinc as [Hinc Hhost].
  apply orb_false_elim in Hinc as [Hproto _].
  apply negb_false_iff in Hproto, Hhost.
  destruct (hostname (purl url_parse e)) as [host|] eqn:Hh; [|done].
  exists host. split; [by destruct host|]. split; [done|].
  destruct (protocol (purl url_parse e)) as [p|] eqn:Hp; [|done].
  apply bool_decide_eq_true in Hproto.
  assert (template_null (Some p) +:+ "//" +:+ template_null (Some host)
          = (if ssl url_parse e then "https://" else "http://") +:+ host) as Ho.
  { unfold ssl. rewrite Hp.
    apply elem_of_cons in Hproto as [->|Hproto]; [done|].
    apply elem_of_cons in Hproto as [->|Hproto]; [done|].
    by apply not_elem_of_nil in Hproto. }
  cbv zeta. rewrite Ho. split; [done|]. apply last_snoc.
Qed.

(** X11. When the base URL starts with the parsed protocol and two
    slashes, [cleanUrl] is the rest of the base URL followed by a slash. *)
Theorem cleanUrl_strips_protocol (p rest : string) :
  protocol (purl url_parse e) = Some p ->
  baseUrl e = p +:+ "//" +:+ rest ->
  cleanUrl url_parse e = rest +:+ "/".
Proof.
  intros Hp Hb. unfold cleanUrl. rewrite Hp, Hb. cbn [template_null].
  f_equal. rewrite <- app_assoc_string.
  generalize (p +:+ "//"). intros pat.
  assert (Hpre : String.prefix pat (pat +:+ rest) = true).
  { induction pat as [|c pat IH]; [by destruct rest|].
    rewrite app_cons_string. cbn [String.prefix].
    by destruct (ascii_dec c c). }
  assert (Hdrop : drop (String.length pat) (pat +:+ rest) = rest).
  { induction pat as [|c pat IH]; [by destruct rest|].
    rewrite app_cons_string. cbn [String.length drop]. apply IH.
    rewrite app_cons_string in Hpre. cbn [String.prefix] in Hpre.
    by destruct (ascii_dec c c). }
  destruct (pat +:+ rest) as [|c t] eqn:Heq.
  - cbn [replace]. rewrite Hpre. by rewrite Hdrop.
  - cbn [replace]. rewrite Hpre. by rewrite Hdrop.
Qed.

End Url.

Lemma cleanUrl_strips_protocol_witness :
  cleanUrl Toy2.parse_localhost Toy2.no_variables = "localhost" +:+ "/".
Proof.
  apply (cleanUrl_strips_protocol Toy2.parse_localhost Toy2.no_variables "http:");
    reflexivity.
Defined.

(** X12. The test environment never shares its database: with the same
    MONGO_ settings, the URL under NODE_ENV=test is the URL under any
    other NODE_ENV followed by [-test], and the two database names
    differ. *)
Theorem mongoUrl_test_suffix
    (node_env base port user pass host mport db origins : option string) :
  Js.or_env node_env "development" <> "test" ->
  mongoUrl (Variables (Some "test") base port user pass host mport db origins)
  = mongoUrl (Variables node_env base port user pass host mport db origins)
      +:+ "-test" /\
  mongoDb (Variables (Some "test") base port user pass host mport db origins)
  <> mongoDb (Variables node_env base port user pass host mport db origins).
Proof.
  intros Hne. unfold mongoUrl, mongoDb, mongoAuth, mongoUser, mongoPass,
    mongoHost, mongoPort, env.
  cbn [NODE_ENV MONGO_USER MONGO_PASS MONGO_HOST MONGO_PORT MONGO_DB].
  rewrite (bool_decide_eq_false_2 _ Hne).
  change (Js.or_env (Some "test") "development") with "test".
  rewrite (bool_decide_eq_true_2 ("test" = "test")) by done.
  split.
  - rewrite !app_assoc_string. reflexivity.
  - intros H. apply (f_equal String.length) in H.
    rewrite !length_app_string in H. simpl in H. lia.
Qed.

Lemma mongoUrl_test_suffix_witness :
  mongoUrl (Variables (Some "test") None None None None None None None None)
  = mongoUrl Toy2.no_variables +:+ "-test" /\
  mongoDb (Variables (Some "test") None None None None None None None None)
  <> mongoDb Toy2.no_variables.
Proof.
  apply (mongoUrl_test_suffix None None None None None None None None None).
  discriminate.
Defined.

Lemma endsWith_slash_substring (b : string) :
  endsWith "/" b = true ->
  String.substring 0 (String.length b - 1) b +:+ "/" = b.
Proof.
  induction b as [|c b IH]; [done|].
  cbn [endsWith]. intros H.
  destruct b as [|c' b'].
  - apply orb_true_iff in H as [H|H]; [|done].
    apply String.eqb_eq in H. by injection H as ->.
  - apply orb_true_iff in H as [H|H].
    { apply String.eqb_eq in H. discriminate H. }
    replace (String.length (String c (String c' b')) - 1)%nat
      with (S (String.length (String c' b') - 1)) by (simpl; lia).
    cbn [String.substring]. rewrite app_cons_string. f_equal.
    by apply IH.
Qed.

Lemma endsWith_app (r : string) : endsWith "/" (r +:+ "/") = true.
Proof.
  induction r as [|c r IH]; [done|].
  rewrite app_cons_string. cbn [endsWith]. rewrite IH. apply orb_true_r.
Qed.

(** X13. [config.baseUrl] is the base URL without one trailing slash:
    either the base URL is [config.baseUrl] followed by a slash, or the
    base URL has no trailing slash and is kept. *)
Theorem config_baseUrl_strips_slash (e : variables) :
  (baseUrl e = config_baseUrl e +:+ "/") \/
  (config_baseUrl e = baseUrl e /\
   forall r : string, baseUrl e <> r +:+ "/").
Proof.
  unfold config_baseUrl. destruct (endsWith "/" (baseUrl e)) eqn:H.
  - left. by rewrite endsWith_slash_substring.
  - right. split; [done|]. intros r Hr. rewrite Hr, endsWith_app in H.
    discriminate.
Qed.

End SettingsFacts.

(** * Properties of the providers setup *)

Module ProvidersFacts.
Import Providers.

Lemma fs_existsSync_run (p : string) (s : process) :
  fs.existsSync p s
  = (Normal (match disk s !! p with Some _ => true | None => false end), s).
Proof. reflexivity. Qed.

Lemma find_image_run (baseUrl provider_id : string) (formats : list string)
    (s : process) :
  find_image baseUrl provider_id formats s
  = (Normal (first_image (disk s) baseUrl provider_id formats), s).
Proof.
  induction formats as [|format formats IH]; [done|].
  cbn [find_image first_image].
  rewrite (bind_run _ _ s _ s (fs_existsSync_run _ s)).
  destruct (disk s !! _); [|exact IH].
  unfold mret, M_ret. by rewrite ?app_assoc_string.
Qed.

Lemma prepare_run (baseUrl : string) (p : provider) (s : process) :
  prepare baseUrl p s = (Normal (prepared (disk s) baseUrl p), s).
Proof.
  unfold prepare, prepared.
  destruct (negb (Js.truthy_env (image p))).
  - rewrite (bind_run _ _ s _ s (find_image_run _ _ _ s)).
    unfold mret, M_ret. by rewrite ?app_assoc_string.
  - destruct (negb (Settings.startsWith "http" _));
      unfold mret, M_ret; by rewrite ?app_assoc_string.
Qed.

Lemma prepare_all_run (baseUrl : string) (l : list provider) (s : process) :
  prepare_all baseUrl l s = (Normal (map (prepared (disk s) baseUrl) l), s).
Proof.
  induction l as [|p l IH]; [done|].
  cbn [prepare_all map].
  rewrite (bind_run _ _ s _ s (prepare_run baseUrl p s)).
  by rewrite (bind_run _ _ s _ s IH).
Qed.

(** X14. Outside the test environment the setup ends normally and
    changes nothing in the process; it returns one object per provider of
    [providers.json], in the same order, with the same [id] and other
    fields, a login URL [baseUrl/login/id] and a callback URL
    [baseUrl/login/id/return].  When [providers.json] cannot be loaded
    the list is empty. *)
Theorem setup_keeps_providers (env baseUrl : string)
    (providers_json : option (list provider)) (s : process) :
  env <> "test" ->
  exists l' : list provider,
    setup env baseUrl providers_json s = (Normal l', s) /\
    Forall2 (fun p p' =>
               id p' = id p /\ others p' = others p /\
               loginURL p' = Some (baseUrl +:+ "/login/" +:+ id p) /\
               callbackURL p' = Some (baseUrl +:+ "/login/" +:+ id p +:+ "/return"))
            (default [] providers_json) l' /\
    (providers_json = None -> l' = []).
Proof.
  intros Hne. unfold setup. rewrite (bool_decide_eq_false_2 _ Hne). cbn [negb].
  rewrite prepare_all_run. eexists. split; [done|]. split.
  - induction (default [] providers_json) as [|p l IH]; constructor; [|done].
    done.
  - by intros ->.
Qed.

Lemma setup_keeps_providers_witness :
  exists l' : list provider,
    setup "production" "http://localhost" (Some Toy2.providers)
          (start Toy2.static_files 18)
    = (Normal l', start Toy2.static_files 18) /\
    Forall2 (fun p p' =>
               id p' = id p /\ others p' = others p /\
               loginURL p' = Some ("http://localhost" +:+ "/login/" +:+ id p) /\
               callbackURL p'
               = Some ("http://localhost" +:+ "/login/" +:+ id p +:+ "/return"))
            (default [] (Some Toy2.providers)) l' /\
    (Some Toy2.providers = None -> l' = []).
Proof.
  apply (setup_keeps_providers "production" "http://localhost"
           (Some Toy2.providers) (start Toy2.static_files 18)).
  discriminate.
Defined.

(** X15. For a provider without an image, the image is looked up under
    [static/] in the order svg, png, jpg: the first of the three files
    that exists gives the image URL, and when none exists the provider
    stays without an image. *)
Theorem image_preference (baseUrl : string) (p : provider) (s : process) :
  Js.truthy_env (image p) = false ->
  exists p' : provider,
    prepare baseUrl p s = (Normal p', s) /\
    let file format := "static/" +:+ id p +:+ "." +:+ format in
    let url format := baseUrl +:+ "/" +:+ file format in
    (is_Some (disk s !! file "svg") -> image p' = Some (url "svg")) /\
    (disk s !! file "svg" = None -> is_Some (disk s !! file "png") ->
     image p' = Some (url "png")) /\
    (disk s !! file "svg" = None -> disk s !! file "png" = None ->
     is_Some (disk s !! file "jpg") -> image p' = Some (url "jpg")) /\
    (disk s !! file "svg" = None -> disk s !! file "png" = None ->
     disk s !! file "jpg" = None -> image p' = image p).
Proof.
  intros Himg. eexists. split; [apply prepare_run|].
  cbv zeta. unfold prepared. cbn [image]. rewrite Himg. cbn [negb].
  unfold imageFormats. cbn [first_image].
  repeat split.
  - by intros [n ->].
  - intros -> [n ->]. done.
  - intros -> -> [n ->]. done.
  - by intros -> -> ->.
Qed.

Lemma image_preference_witness :
  exists p' : provider,
    prepare "http://localhost" (Provider "github" None None None []) 
            (start Toy2.static_files 18)
    = (Normal p', start Toy2.static_files 18) /\
    let file format := "static/" +:+ "github" +:+ "." +:+ format in
    let url format := "http://localhost" +:+ "/" +:+ file format in
    (is_Some (Toy2.static_files !! file "svg") -> image p' = Some (url "svg")) /\
    (Toy2.static_files !! file "svg" = None ->
     is_Some (Toy2.static_files !! file "png") ->
     image p' = Some (url "png")) /\
    (Toy2.static_files !! file "svg" = None ->
     Toy2.static_files !! file "png" = None ->
     is_Some (Toy2.static_files !! file "jpg") -> image p' = Some (url "jpg")) /\
    (Toy2.static_files !! file "svg" = None ->
     Toy2.static_files !! file "png" = None ->
     Toy2.static_files !! file "jpg" = None -> image p' = None).
Proof.
  apply (image_preference "http://localhost" (Provider "github" None None None [])
           (start Toy2.static_files 18)).
  reflexivity.
Defined.

Lemma prefix_app (a b c : string) :
  String.prefix a b = true -> String.prefix a (b +:+ c) = true.
Proof.
  revert a. induction b as [|x b IH]; intros a H.
  - destruct a; [|discriminate H]. by destruct c.
  - rewrite app_cons_string. destruct a as [|y a]; [reflexivity|].
    cbn [String.prefix] in H |- *.
    destruct (ascii_dec y x); [by apply IH|done].
Qed.

Lemma prefix_http_truthy (u : string) :
  String.prefix "http" u = true -> Js.truthy_string u = true.
Proof. by destruct u. Qed.

Lemma first_image_absolute (d : gmap string node) (baseUrl provider_id : string)
    (formats : list string) (url : string) :
  String.prefix "http" baseUrl = true ->
  first_image d baseUrl provider_id formats = Some url ->
  String.prefix "http" url = true.
Proof.
  intros Hb. induction formats as [|format formats IH]; [done|].
  cbn [first_image]. destruct (d !! _); [|exact IH].
  intros [= <-]. by apply prefix_app.
Qed.

Lemma prepared_absolute (d : gmap string node) (baseUrl : string) (p : provider) :
  String.prefix "http" baseUrl = true ->
  Js.truthy_env (image (prepared d baseUrl p)) = true ->
  Settings.startsWith "http" (Js.toString_env (image (prepared d baseUrl p))) = true.
Proof.
  intros Hb. unfold prepared. cbn [image].
  destruct (Js.truthy_env (image p)) eqn:Himg; cbn [negb].
  - destruct (Settings.startsWith "http" _) eqn:Hs; cbn [negb]; [done|].
    intros _. cbn [Js.toString_env]. by apply prefix_app.
  - destruct (first_image d baseUrl (id p) imageFormats) as [url|] eqn:Hf.
    + intros _. by apply (first_image_absolute _ _ _ _ _ Hb Hf).
    + by rewrite Himg.
Qed.

(** X16. When the base URL starts with [http], every image that a
    prepared provider has is an absolute URL: it starts with [http],
    whether it was found under [static/], given as a relative path or
    given as an absolute URL. *)
Theorem images_are_absolute (baseUrl : string) (l : list provider) (s : process) :
  Settings.startsWith "http" baseUrl = true ->
  exists l' : list provider,
    prepare_all baseUrl l s = (Normal l', s) /\
    forall p' : provider,
      p' ∈ l' ->
      Js.truthy_env (image p') = true ->
      Settings.startsWith "http" (Js.toString_env (image p')) = true.
Proof.
  intros Hb. eexists. split; [apply prepare_all_run|].
  intros p' Hin. apply list_elem_of_In, in_map_iff in Hin as (p & <- & _).
  by apply prepared_absolute.
Qed.

Lemma images_are_absolute_witness :
  exists l' : list provider,
    prepare_all "http://localhost" Toy2.providers (start Toy2.static_files 18)
    = (Normal l', start Toy2.static_files 18) /\
    forall p' : provider,
      p' ∈ l' ->
      Js.truthy_env (image p') = true ->
      Settings.startsWith "http" (Js.toString_env (image p')) = true.
Proof.
  apply (images_are_absolute "http://localhost" Toy2.providers
           (start Toy2.static_files 18)).
  reflexivity.
Defined.

Lemma prepared_idempotent (d : gmap string node) (baseUrl : string) (p : provider) :
  String.prefix "http" baseUrl = true ->
  prepared d baseUrl (prepared d baseUrl p) = prepared d baseUrl p.
Proof.
  intros Hb.
  destruct (Js.truthy_env (image (prepared d baseUrl p))) eqn:Himg'.
  - pose proof (prepared_absolute d baseUrl p Hb Himg') as Habs.
    unfold prepared at 1. rewrite Himg', Habs. cbn [negb].
    by destruct p.
  - unfold prepared at 1. rewrite Himg'. cbn [negb].
    assert (Hnone : first_image d baseUrl (id (prepared d baseUrl p)) imageFormats
                    = None).
    { change (id (prepared d baseUrl p)) with (id p).
      unfold prepared in Himg'. cbn [image] in Himg'.
      destruct (Js.truthy_env (image p)) eqn:Himg; cbn [negb] in Himg'.
      - destruct (Settings.startsWith "http" _) eqn:Hs; cbn [negb] in Himg';
          [congruence|].
        cbn [Js.truthy_env] in Himg'.
        apply (prefix_app _ _ ("/" +:+ Js.toString_env (image p))) in Hb.
        apply prefix_http_truthy in Hb. congruence.
      - destruct (first_image d baseUrl (id p) imageFormats) as [url|] eqn:Hf;
          [|done].
        apply (first_image_absolute _ _ _ _ _ Hb) in Hf.
        apply prefix_http_truthy in Hf. cbn [Js.truthy_env] in Himg'. congruence. }
    rewrite Hnone. by destruct p.
Qed.

(** X17. When the base URL starts with [http], preparing the providers is
    idempotent: running the loop again over its own result, on the same
    disk, returns the same objects. *)
Theorem prepare_all_idempotent (baseUrl : string) (l : list provider) (s : process) :
  Settings.startsWith "http" baseUrl = true ->
  exists l' : list provider,
    prepare_all baseUrl l s = (Normal l', s) /\
    prepare_all baseUrl l' s = (Normal l', s).
Proof.
  intros Hb. eexists. split; [apply prepare_all_run|].
  rewrite prepare_all_run. do 2 f_equal.
  rewrite map_map. apply map_ext. intros p. by apply prepared_idempotent.
Qed.

Lemma prepare_all_idempotent_witness :
  exists l' : list provider,
    prepare_all "http://localhost" Toy2.providers (start Toy2.static_files 18)
    = (Normal l', start Toy2.static_files 18) /\
    prepare_all "http://localhost" l' (start Toy2.static_files 18)
    = (Normal l', start Toy2.static_files 18).
Proof.
  apply (prepare_all_idempotent "http://localhost" Toy2.providers
           (start Toy2.static_files 18)).
  reflexivity.
Defined.

(** Without that condition a relative image gets the base URL in front
    of it again on each pass. *)
Example prepare_twice_relative :
  let p := Provider "local" (Some "img/local.png") None None [] in
  let s := start ∅ 18 in
  image (prepared ∅ "/auth" p) = Some "/auth/img/local.png" /\
  image (prepared ∅ "/auth" (prepared ∅ "/auth" p))
  = Some "/auth//auth/img/local.png".
Proof. split; reflexivity. Qed.

End ProvidersFacts.

(** * The further properties on example disks *)

Lemma exit_leaves_disk_witness :
  1 = 1 /\
  disk (snd (toy_resolve Toy.no_paths (start Toy.mismatched_pair 18)))
  = Toy.mismatched_pair /\
  effects (snd (toy_resolve Toy.no_paths (start Toy.mismatched_pair 18))) = [] /\
  exists line : string,
    console (snd (toy_resolve Toy.no_paths (start Toy.mismatched_pair 18)))
    = [(err, line)].
Proof.
  apply (exit_leaves_disk Toy.sign Toy.verify Toy.generate Toy.no_paths
           Toy.mismatched_pair 18 1).
  vm_compute. reflexivity.
Defined.

Lemma regeneration_keeps_entries_witness :
  exists i j : nat,
    least_free Toy.lone_public_key "./private" i /\
    least_free Toy.lone_public_key "./public" j /\
    (forall n : node,
        Toy.lone_public_key !! "./private.key" = Some n ->
        (0 < i)%nat /\
        disk (snd (toy_resolve Toy.no_paths (start Toy.lone_public_key 18)))
        !! file "./private" i = Some n) /\
    (forall n : node,
        Toy.lone_public_key !! "./public.key" = Some n ->
        (0 < j)%nat /\
        disk (snd (toy_resolve Toy.no_paths (start Toy.lone_public_key 18)))
        !! file "./public" j = Some n) /\
    (forall r : string,
        (0 < i)%nat ->
        disk (snd (toy_resolve Toy.no_paths (start Toy.lone_public_key 18)))
        !! (file "./private" i +:+ "/" +:+ r)
        = Toy.lone_public_key !! ("./private.key" +:+ "/" +:+ r)) /\
    (forall r : string,
        (0 < j)%nat ->
        disk (snd (toy_resolve Toy.no_paths (start Toy.lone_public_key 18)))
        !! (file "./public" j +:+ "/" +:+ r)
        = Toy.lone_public_key !! ("./public.key" +:+ "/" +:+ r)) /\
    (forall p : string,
        p <> "./private.key" -> p <> "./public.key" ->
        p <> file "./private" i -> p <> file "./public" j ->
        fs.below "./private.key" p = false -> fs.below "./public.key" p = false ->
        fs.below (file "./private" i) p = false ->
        fs.below (file "./public" j) p = false ->
        disk (snd (toy_resolve Toy.no_paths (start Toy.lone_public_key 18))) !! p
        = Toy.lone_public_key !! p).
Proof.
  apply (regeneration_keeps_entries Toy.sign Toy.verify Toy.generate Toy.no_paths
           Toy.lone_public_key 18).
  assert (Hc : console (snd (toy_resolve Toy.no_paths
                               (start Toy.lone_public_key 18)))
               = [(log, msg_generating);
                  (warn, msg_renaming "./public.key" "./public.backup.2.key")]).
  { vm_compute. reflexivity. }
  rewrite Hc. apply list_elem_of_here.
Defined.

Lemma restart_loads_generated_pair_witness :
  exists s'' : process,
    toy_resolve Toy.no_paths
      (start (disk (snd (toy_resolve Toy.no_paths (start ∅ 18)))) 18)
    = (Normal (Some (Buffer (Toy.bytes "fresh")), Some (Buffer (Toy.bytes "fresh"))),
       s'') /\
    disk s'' = disk (snd (toy_resolve Toy.no_paths (start ∅ 18))) /\
    effects s'' = [] /\
    console s'' = [(log, msg_loaded)].
Proof.
  apply (restart_loads_generated_pair Toy.sign Toy.verify Toy.generate
           Toy.no_paths ∅ 18 18).
  - assert (Hc : console (snd (toy_resolve Toy.no_paths (start ∅ 18)))
                 = [(log, msg_generating)]).
    { vm_compute. reflexivity. }
    rewrite Hc. apply list_elem_of_here.
  - vm_compute. reflexivity.
Defined.

Lemma restart_rejects_generated_pair_witness :
  fst (resolve Toy.sign Toy.verify Toy2.mismatched_generate Toy.no_paths (start ∅ 18))
  = Normal (Some (Text "fresh-private"), Some (Text "fresh-public")) /\
  exists s'' : process,
    resolve Toy.sign Toy.verify Toy2.mismatched_generate Toy.no_paths
      (start (disk (snd (resolve Toy.sign Toy.verify Toy2.mismatched_generate
                                 Toy.no_paths (start ∅ 18)))) 18)
    = (Exit 1, s'') /\
    disk s'' = disk (snd (resolve Toy.sign Toy.verify Toy2.mismatched_generate
                                  Toy.no_paths (start ∅ 18))) /\
    effects s'' = [].
Proof.
  apply (restart_rejects_generated_pair Toy.sign Toy.verify
           Toy2.mismatched_generate Toy.no_paths ∅ 18 18
           (Error "JsonWebTokenError" None None "invalid signature")).
  - assert (Hc : console (snd (resolve Toy.sign Toy.verify Toy2.mismatched_generate
                                       Toy.no_paths (start ∅ 18)))
                 = [(log, msg_generating)]).
    { vm_compute. reflexivity. }
    rewrite Hc. apply list_elem_of_here.
  - vm_compute. reflexivity.
Defined.

Lemma backup_index_grows_witness :
  let s := start Toy2.one_backup 18 in
  let s1 := snd (backup "./private" s) in
  let s2 := snd (fs.writeFileSync (file "./private" 0) (Some (Text "k3")) s1) in
  (2 < 3)%nat /\
  disk s2 !! file "./private" 2 = disk s !! file "./private" 0.
Proof.
  cbv zeta.
  apply (backup_index_grows "./private" (Text "k3")
           (start Toy2.one_backup 18)
           (snd (backup "./private" (start Toy2.one_backup 18)))
           (snd (fs.writeFileSync (file "./private" 0) (Some (Text "k3"))
                   (snd (backup "./private" (start Toy2.one_backup 18)))))
           2 3).
  - lia.
  - vm_compute. reflexivity.
  - vm_compute. reflexivity.
  - vm_compute. reflexivity.
  - vm_compute. reflexivity.
Defined.

Lemma first_start_generates_witness :
  toy_resolve Toy.no_paths (start ∅ 18) =
    (Normal (Some (Text "fresh"), Some (Text "fresh")),
     Process
       (Some (Text "fresh")) (Some (Text "fresh"))
       (<["./public.key" := File (Toy.bytes "fresh") 420]>
          (<["./private.key" := File (Toy.bytes "fresh") 384]> ∅))
       18
       [Write "./private.key" (Toy.bytes "fresh");
        Chmod "./private.key" "600";
        Write "./public.key" (Toy.bytes "fresh");
        Chmod "./public.key" "644"]
       [(log, msg_generating)]).
Proof.
  apply (first_start_generates Toy.sign Toy.verify Toy.generate Toy.no_paths ∅ 18);
    reflexivity.
Defined.

(** A directory at [./private.key] is moved aside with what is below
    it. *)
Example directory_moves_with_entries :
  let r := toy_resolve Toy.no_paths (start Toy2.private_key_directory 18) in
  effects (snd r) =
    [Rename "./private.key" "./private.backup.1.key";
     Write "./private.key" (Toy.bytes "fresh");
     Chmod "./private.key" "600";
     Write "./public.key" (Toy.bytes "fresh");
     Chmod "./public.key" "644"] /\
  disk (snd r) =
    {[ "./private.backup.1.key" := Directory;
       "./private.backup.1.key/notes.txt" := File (Toy.bytes "n") 420;
       "./private.key" := File (Toy.bytes "fresh") 384;
       "./public.key" := File (Toy.bytes "fresh") 420 ]}.
Proof. split; vm_compute; reflexivity. Qed.
